(** * Blackjack: a shallow embedding of [blackjack.py] and [deck.py]

    Cards, the two card supplies ([Deck] of blackjack.py and [Deck] of
    deck.py), hand scoring, and [GameController.play_round] are written as
    Rocq functions.  Python exceptions are values of [Exn] carried by
    [Result]; loops whose termination depends on the decision policy take
    fuel.  Lists keep Python's orientation: index 0 is the head,
    [append] adds at the end, [pop()] removes the last element. *)

From Stdlib Require Import ZArith QArith Lia Lqa Bool Ascii String Sorted.
From stdpp Require Import base list strings pretty.

Local Open Scope Z_scope.

(** ** Exceptions and results *)

Inductive Exn :=
  | IndexError | KeyError | ValueError | TypeError | AttributeError
  | RequestException.

Inductive Result (A : Type) :=
  | Ok (a : A)
  | Raise (e : Exn)
  | OutOfFuel.
Arguments Ok {A} a.
Arguments Raise {A} e.
Arguments OutOfFuel {A}.

Definition bind {A B} (r : Result A) (k : A -> Result B) : Result B :=
  match r with
  | Ok a => k a
  | Raise e => Raise e
  | OutOfFuel => OutOfFuel
  end.

Notation "'let*' x ':=' r 'in' k" := (bind r (fun x => k))
  (at level 10, x pattern, r at level 100, k at level 200).

(** [list.pop()] : the last element and the list without it. *)
Definition pop {A} (l : list A) : option (A * list A) :=
  match last l with
  | Some x => Some (x, removelast l)
  | None => None
  end.

(** ** Cards *)

(** The thirteen strings of [values] and the four of [suits] in
    [_generate_backup_pile]. *)
Inductive Rank :=
  | R2 | R3 | R4 | R5 | R6 | R7 | R8 | R9 | R10 | JACK | QUEEN | KING | ACE.

Inductive Suit := SPADES | DIAMONDS | HEARTS | CLUBS.

Definition values : list Rank :=
  [R2; R3; R4; R5; R6; R7; R8; R9; R10; JACK; QUEEN; KING; ACE].
Definition suits : list Suit := [SPADES; DIAMONDS; HEARTS; CLUBS].

Definition value_str (v : Rank) : string :=
  match v with
  | R2 => "2" | R3 => "3" | R4 => "4" | R5 => "5" | R6 => "6" | R7 => "7"
  | R8 => "8" | R9 => "9" | R10 => "10"
  | JACK => "JACK" | QUEEN => "QUEEN" | KING => "KING" | ACE => "ACE"
  end.

Definition suit_str (s : Suit) : string :=
  match s with
  | SPADES => "SPADES" | DIAMONDS => "DIAMONDS"
  | HEARTS => "HEARTS" | CLUBS => "CLUBS"
  end.

(** [int(card.value)] on the numeric ranks. *)
Definition int_value (v : Rank) : Z :=
  match v with
  | R2 => 2 | R3 => 3 | R4 => 4 | R5 => 5 | R6 => 6 | R7 => 7
  | R8 => 8 | R9 => 9 | R10 => 10
  | JACK | QUEEN | KING | ACE => 0
  end.

#[global] Instance Rank_eq_dec : EqDecision Rank.
Proof. solve_decision. Defined.
#[global] Instance Suit_eq_dec : EqDecision Suit.
Proof. solve_decision. Defined.

Record Card := mkCard {
  value : Rank;
  suit : Suit;
  code : string;
  top_down : bool
}.

(** [Card.__eq__]: value, suit and code; [top_down] is not compared. *)
Definition Card_eq (a b : Card) : bool :=
  bool_decide (value a = value b) && bool_decide (suit a = suit b)
  && bool_decide (code a = code b).

Definition set_top_down (c : Card) (b : bool) : Card :=
  mkCard (value c) (suit c) (code c) b.

(** [Card.__str__] and [Card.__repr__]. *)
Definition Card_str (c : Card) : string :=
  if top_down c then "??" else code c.
Definition Card_repr (c : Card) : string := code c.

#[global] Instance Card_eq_dec : EqDecision Card.
Proof. solve_decision. Defined.

(** [str.isdigit] on ASCII strings (false on the empty string). *)
Definition is_digit_ascii (a : ascii) : bool :=
  let n := nat_of_ascii a in (48 <=? n)%nat && (n <=? 57)%nat.

Fixpoint all_digits (s : string) : bool :=
  match s with
  | EmptyString => true
  | String a s' => is_digit_ascii a && all_digits s'
  end.

Definition isdigit (s : string) : bool :=
  match s with EmptyString => false | _ => all_digits s end.

Fixpoint last_char (s : string) : string :=
  match s with
  | EmptyString => EmptyString
  | String a EmptyString => String a EmptyString
  | String _ s' => last_char s'
  end.

Definition first_char (s : string) : string :=
  match s with
  | EmptyString => EmptyString
  | String a _ => String a EmptyString
  end.

(** [(v[-1] if v.isdigit() else v[0]) + s[0]] *)
Definition card_code (v : Rank) (s : Suit) : string :=
  String.append
    (if isdigit (value_str v) then last_char (value_str v)
     else first_char (value_str v))
    (first_char (suit_str s)).

(** [Card(v, s, code)]: [top_down] starts [False]. *)
Definition Card_init (v : Rank) (s : Suit) (c : string) : Card :=
  mkCard v s c false.

(** [[Card(v, s, ...) for v in values for s in suits]] *)
Definition _generate_backup_pile : list Card :=
  flat_map (fun v => map (fun s => Card_init v s (card_code v s)) suits) values.

(** ** Hands *)

Record Hand := mkHand {
  cards : list Card;
  is_double_down : bool;
  is_surrendered : bool
}.

(** [Hand(cards)]: [cards if cards else []], both flags [False]. *)
Definition Hand_init (cs : list Card) : Hand := mkHand cs false false.

Definition add_card (h : Hand) (c : Card) : Hand :=
  mkHand (cards h ++ [c]) (is_double_down h) (is_surrendered h).

Definition double_down (h : Hand) (c : Card) : Hand :=
  mkHand (cards (add_card h c)) true (is_surrendered (add_card h c)).

Definition set_surrendered (h : Hand) : Hand :=
  mkHand (cards h) (is_double_down h) true.

(** [len(self.cards) == 2 and self.cards[0].value == self.cards[1].value] *)
Definition can_split (h : Hand) : bool :=
  match cards h with
  | [c0; c1] => bool_decide (value c0 = value c1)
  | _ => false
  end.

(** One pass of the first loop of [score]: the pair is
    [(score, aces_count)]. *)
Definition score_card (acc : Z * nat) (c : Card) : Z * nat :=
  let '(score, aces_count) := acc in
  match value c with
  | JACK | QUEEN | KING => (score + 10, aces_count)
  | ACE => (score + 1, S aces_count)
  | v => (score + int_value v, aces_count)
  end.

(** [for _ in range(aces_count): score += 10 if score + 10 <= 21 else 0] *)
Fixpoint promote_aces (aces_count : nat) (score : Z) : Z :=
  match aces_count with
  | O => score
  | S n => promote_aces n (score + (if score + 10 <=? 21 then 10 else 0))
  end.

Definition score (h : Hand) : Z :=
  let '(s, aces_count) := fold_left score_card (cards h) (0, O) in
  promote_aces aces_count s.

(** [len(self.cards) == 2 and self.score == 21] *)
Definition is_blackjack (h : Hand) : bool :=
  (length (cards h) =? 2)%nat && (score h =? 21).

(** Python's [max(xs, key=k)] with a boolean key on a non-empty list: the
    first element whose key is maximal. *)
Fixpoint max_by_key {A} (k : A -> bool) (best : A) (xs : list A) : A :=
  match xs with
  | [] => best
  | x :: xs' =>
      (* replaced only when strictly greater: k best = False, k x = True *)
      if negb (k best) && k x then max_by_key k x xs' else max_by_key k best xs'
  end.

(** [max(self.cards, key=lambda x: x.value == 'ACE').value == 'ACE'
     if len(self.cards) > 0 else False] *)
Definition is_soft_hand (h : Hand) : bool :=
  match cards h with
  | [] => false
  | c :: cs =>
      bool_decide (value (max_by_key (fun x => bool_decide (value x = ACE)) c cs) = ACE)
  end.

(** [Hand.split]: raises [ValueError] unless [can_split]; otherwise pops the
    last card into a new hand.  Returns the shrunk hand and the new one. *)
Definition split (h : Hand) : Result (Hand * Hand) :=
  if negb (can_split h) then Raise ValueError
  else match pop (cards h) with
       | Some (c, rest) =>
           Ok (mkHand rest (is_double_down h) (is_surrendered h), Hand_init [c])
       | None => Raise IndexError
       end.

(** ** The remote card service

    What [requests.get(url).json()] can produce: a transport failure
    ([requests.exceptions.RequestException]), a body that is not JSON
    ([ValueError]), or a JSON object.  A key that the object lacks is [None]
    here and a [KeyError] at the subscript. *)

Record RawCard := mkRawCard {
  r_value : option string;
  r_suit : option string;
  r_code : option string
}.

Record Body := mkBody {
  b_shuffled : option bool;
  b_deck_id : option string;
  b_remaining : option Z;
  b_cards : option (list RawCard)
}.

Inductive Response :=
  | NetworkError
  | Malformed
  | Json (b : Body).

Definition Network := string -> Response.

Definition DECK_BASE_API : string := "https://deckofcardsapi.com/api/deck/".

(** [card == Card(v, s, c)] for a card of the pile against the strings of a
    remote card. *)
Definition Card_eq_raw (v s c : string) (x : Card) : bool :=
  bool_decide (value_str (value x) = v) && bool_decide (suit_str (suit x) = s)
  && bool_decide (code x = c).

(** [list.remove(card)]: drops the first element equal to the card; [None]
    stands for the [ValueError] of a missing element.  The element found is
    returned with the rest. *)
Fixpoint list_remove (eqb : Card -> bool) (l : list Card) : option (Card * list Card) :=
  match l with
  | [] => None
  | x :: l' =>
      if eqb x then Some (x, l')
      else match list_remove eqb l' with
           | Some (y, r) => Some (y, x :: r)
           | None => None
           end
  end.

(** ** [Deck] of blackjack.py *)

Module Deck.

Record t := mk {
  deck_count : nat;
  is_shuffled : bool;
  id : option string;
  _backup_deck : list Card;
  remaining : Z
}.

(** [if self.id:] — [None] and the empty string are false. *)
Definition truthy (i : option string) : bool :=
  match i with
  | Some s => negb (bool_decide (s = EmptyString))
  | None => false
  end.

Definition id_str (i : option string) : string :=
  match i with Some s => s | None => "None" end.

(** [Deck(deck_count, shuffle)]; [random_shuffle] is the permutation that
    [random.shuffle] applies.  No request is made: [id] stays [None]. *)
Definition init (random_shuffle : list Card -> list Card)
    (deck_count : nat) (shuffle : bool) : t :=
  let pile := concat (replicate deck_count _generate_backup_pile) in
  mk deck_count shuffle None
     (if shuffle then random_shuffle pile else pile)
     (Z.of_nat (length pile)).

(** [except KeyError or requests.exceptions.RequestException or ValueError:]
    the operand of [except] is the value of the [or] chain, its first
    truthy operand: the class [KeyError]. *)
Definition request_catches (e : Exn) : bool :=
  match e with KeyError => true | _ => false end.

(** The [try] body of [_request]: the deck as mutated so far, the value of
    [resp] so far, and the exception that ended the body if any. *)
Definition request_body (net : Network) (url : string) (d : t)
    : t * option Body * option Exn :=
  match net url with
  | NetworkError => (d, None, Some RequestException)
  | Malformed => (d, None, Some ValueError)
  | Json b =>
      let d1 := mk (deck_count d)
                   (match b_shuffled b with Some sh => sh | None => is_shuffled d end)
                   (id d) (_backup_deck d) (remaining d) in
      match b_deck_id b with
      | None => (d1, Some b, Some KeyError)
      | Some i =>
          let d2 := mk (deck_count d1) (is_shuffled d1) (Some i)
                       (_backup_deck d1) (remaining d1) in
          match b_remaining b with
          | None => (d2, Some b, Some KeyError)
          | Some r =>
              (mk (deck_count d2) (is_shuffled d2) (id d2) (_backup_deck d2) r,
               Some b, None)
          end
      end
  end.

Definition _request (net : Network) (url : string) (d : t)
    : Result (option Body * t) :=
  match request_body net url d with
  | (d', resp, None) => Ok (resp, d')
  | (d', resp, Some e) =>
      if request_catches e
      then Ok (resp, mk (deck_count d') (is_shuffled d') None
                        (_backup_deck d') (remaining d'))
      else Raise e
  end.

(** [card = self._backup_deck.pop(); self.remaining = len(...)], then
    [card.top_down = top_down; return card]. *)
Definition pop_local (top_down : bool) (d : t) : Result (option Card * t) :=
  match pop (_backup_deck d) with
  | None => Raise IndexError
  | Some (card, rest) =>
      Ok (Some (set_top_down card top_down),
          mk (deck_count d) (is_shuffled d) (id d) rest (Z.of_nat (length rest)))
  end.

Definition draw_card (net : Network) (top_down : bool) (d : t)
    : Result (option Card * t) :=
  if truthy (id d) then
    let* (resp, d1) :=
      _request net (DECK_BASE_API +:+ id_str (id d) +:+ "/draw/?count=1") d in
    match resp with
    | None => Raise TypeError
    | Some b =>
        match b_cards b with
        | None => Raise KeyError
        | Some [] => Ok (None, d1)
        | Some (rc :: _) =>
            match r_value rc, r_suit rc, r_code rc with
            | Some v, Some s, Some c =>
                match list_remove (Card_eq_raw v s c) (_backup_deck d1) with
                | Some (card, rest) =>
                    Ok (Some (set_top_down card top_down),
                        mk (deck_count d1) (is_shuffled d1) (id d1) rest
                           (remaining d1))
                | None => (* except ValueError *) pop_local top_down d1
                end
            | _, _, _ => Raise KeyError
            end
        end
    end
  else pop_local top_down d.

(** [k] successive calls of [draw_card()], the cards in the order drawn. *)
Fixpoint draw_cards (net : Network) (k : nat) (d : t)
    : Result (list (option Card) * t) :=
  match k with
  | O => Ok ([], d)
  | S k' =>
      let* (c, d1) := draw_card net false d in
      let* (cs, d2) := draw_cards net k' d1 in
      Ok (c :: cs, d2)
  end.

(** [Deck.shuffle]: asks the service to shuffle when a session is held,
    then [random.shuffle(self._backup_deck)]; [random_shuffle] is the
    permutation applied. *)
Definition shuffle (net : Network) (random_shuffle : list Card -> list Card)
    (d : t) : Result t :=
  let* d1 :=
    (if truthy (id d) then
       let* (_, d1) :=
         _request net (DECK_BASE_API +:+ id_str (id d) +:+ "/shuffle") d in
       Ok d1
     else Ok d) in
  Ok (mk (deck_count d1) (is_shuffled d1) (id d1)
         (random_shuffle (_backup_deck d1)) (remaining d1)).

End Deck.

(** ** [Deck] of deck.py *)

Module DeckPy.

Record t := mk {
  _backup_deck : list Card;
  remaining : Z;
  id : option string;
  deck_count : nat;
  is_shuffled : bool
}.

(** [requests.get(url).json()], nothing caught. *)
Definition _request (net : Network) (url : string) : Result Body :=
  match net url with
  | NetworkError => Raise RequestException
  | Malformed => Raise ValueError
  | Json b => Ok b
  end.

Definition init (net : Network) (deck_count : nat) (shuffle : bool) : Result t :=
  let pile := concat (replicate deck_count _generate_backup_pile) in
  let shuffle_param : string := if shuffle then "shuffle/" else "" in
  let* result :=
    _request net (DECK_BASE_API +:+ "/new/" +:+ shuffle_param
                  +:+ "?deck_count=" +:+ pretty deck_count) in
  match b_remaining result with
  | Some r =>
      match b_deck_id result with
      | Some i => Ok (mk pile r (Some i) deck_count shuffle)
      | None => Raise KeyError
      end
  | None => Ok (mk pile (-1) None deck_count shuffle)
  end.

Definition draw_card (net : Network) (top_down : bool) (d : t)
    : Result (option Card * t) :=
  let* c :=
    match id d with
    | Some i =>
        let* result := _request net (DECK_BASE_API +:+ i +:+ "/draw/?count=1") in
        match b_cards result with
        | None => Raise KeyError
        | Some [] => Raise IndexError
        | Some (rc :: _) =>
            match r_value rc, r_suit rc, r_code rc with
            | Some v, Some s, Some c => Ok (Some (v, s, c))
            | _, _, _ => Raise KeyError
            end
        end
    | None => Ok None
    end in
  (* [if c is not None:] membership, then [remove] *)
  let '(c, pile) :=
    match c with
    | Some (v, s, c) =>
        match list_remove (Card_eq_raw v s c) (_backup_deck d) with
        | Some (card, rest) => (Some card, rest)
        | None => (None, _backup_deck d)
        end
    | None => (None, _backup_deck d)
    end in
  match c with
  | Some card =>
      Ok (Some (set_top_down card top_down),
          mk pile (Z.of_nat (length pile)) (id d) (deck_count d) (is_shuffled d))
  | None =>
      match pop pile with
      | Some (card, rest) =>
          Ok (Some (set_top_down card top_down),
              mk rest (Z.of_nat (length rest)) (id d) (deck_count d) (is_shuffled d))
      | None => Ok (None, d)
      end
  end.

(** [self._request(Deck.DECK_BASE_API + self.id + "/suhffle")]: the sum of a
    [str] and [None] raises [TypeError]; the answer is dropped. *)
Definition shuffle (net : Network) (d : t) : Result t :=
  match id d with
  | None => Raise TypeError
  | Some i =>
      let* _ := _request net (DECK_BASE_API +:+ i +:+ "/suhffle") in
      Ok d
  end.

End DeckPy.

(** ** Decision policies and players *)

(** Modelled from the spec: the enumeration [game_view.Move], which is
    imported by blackjack.py and not defined there.  [play_round] names five
    members; [OTHER] stands for any other value a policy may return. *)
Inductive Move := HIT | SPLIT | DOUBLE_DOWN | STAND | SURRENDER | OTHER.

(** What a strategy object has been told: [on_card_drawn(c)], the assignment
    [strategy.house = h], a [play_move(h)] call, [on_game_end()]. *)
Inductive Notice :=
  | CardDrawn (c : Card)
  | HouseSet (h : Hand)
  | MoveAsked (h : Hand)
  | GameEnd.

(** Modelled from the spec: the class [strategy.Strategy], imported by
    blackjack.py and not defined there (section 6, DecisionPolicy:
    [decide(hand, ...) -> Action] with the [onCardDrawn] and [onRoundEnd]
    notifications).  A deterministic policy is its decision as a function of
    everything it was told so far and of the hand it is asked about. *)
Record Strategy := mkStrategy {
  play_move : list Notice -> Hand -> Move
}.

(** [coins] is a Python number: an [int] until a surrender adds the float
    [0.5 * BUY_IN_COST]; halves of integers of this size are exact floats,
    so the balance is a rational here. *)
Record Player := mkPlayer {
  name : string;
  hands : list Hand;
  coins : Q;
  strategy : Strategy;
  told : list Notice
}.

Definition set_hands (hs : list Hand) (pl : Player) : Player :=
  mkPlayer (name pl) hs (coins pl) (strategy pl) (told pl).
Definition set_coins (c : Q) (pl : Player) : Player :=
  mkPlayer (name pl) (hands pl) c (strategy pl) (told pl).
Definition tell (n : Notice) (pl : Player) : Player :=
  mkPlayer (name pl) (hands pl) (coins pl) (strategy pl) (told pl ++ [n]).

(** [Player.join_table]: [self.hands = [Hand()]] *)
Definition join_table (pl : Player) : Player := set_hands [Hand_init []] pl.

(** [Player.split_hand(hand)], the hand being [self.hands[i]]:
    [if hand in self.hands: self.hands.append(hand.split())] *)
Definition split_hand (i : nat) (pl : Player) : Result Player :=
  match hands pl !! i with
  | Some h =>
      let* (h', hnew) := split h in
      Ok (set_hands (<[i := h']> (hands pl) ++ [hnew]) pl)
  | None => Ok pl
  end.

(** ** The game controller *)

(** Calls that leave the controller: [self.view.show_table(self.players,
    house, hand)], [hand] given as (player index, hand index), and
    [player.play_move(arg)] made while hand [resolving] of [player] is played,
    [arg] being [player.hands[passed]]. *)
Inductive Event :=
  | ShowTable (house_shown : Hand) (hand : option (nat * nat))
  | PlayMove (player resolving passed : nat) (arg : Hand) (answer : Move).

Record GameController := mkGame {
  BUY_IN_COST : Z;
  house : Hand;
  players : list Player;
  deck : Deck.t;
  active_players : list nat;
  trace : list Event
}.

Definition set_house (h : Hand) (g : GameController) : GameController :=
  mkGame (BUY_IN_COST g) h (players g) (deck g) (active_players g) (trace g).
Definition set_players (ps : list Player) (g : GameController) : GameController :=
  mkGame (BUY_IN_COST g) (house g) ps (deck g) (active_players g) (trace g).
Definition set_deck (d : Deck.t) (g : GameController) : GameController :=
  mkGame (BUY_IN_COST g) (house g) (players g) d (active_players g) (trace g).
Definition set_active (a : list nat) (g : GameController) : GameController :=
  mkGame (BUY_IN_COST g) (house g) (players g) (deck g) a (trace g).
Definition emit (e : Event) (g : GameController) : GameController :=
  mkGame (BUY_IN_COST g) (house g) (players g) (deck g) (active_players g)
         (trace g ++ [e]).

Definition upd_player (p : nat) (f : Player -> Player) (g : GameController)
    : GameController :=
  set_players (alter f p (players g)) g.

Definition upd_hand (p i : nat) (f : Hand -> Hand) (g : GameController)
    : GameController :=
  upd_player p (fun pl => set_hands (alter f i (hands pl)) pl) g.

Definition player_hands (g : GameController) (p : nat) : list Hand :=
  match players g !! p with Some pl => hands pl | None => [] end.

Definition player_coins (g : GameController) (p : nat) : Q :=
  match players g !! p with Some pl => coins pl | None => 0%Q end.

(** [coins < cost] and [coins >= cost] between a balance and the integer
    [BUY_IN_COST]. *)
Definition coins_ge (c : Q) (cost : Z) : bool := Qle_bool (inject_Z cost) c.
Definition coins_lt (c : Q) (cost : Z) : bool := negb (coins_ge c cost).

(** [GameController._draw_card]: one card from the deck, announced to every
    player's strategy.  [draw_card] answers [None] only on the remote path
    (a session [Deck.__init__] of blackjack.py never opens); the [None]
    would enter a hand whose next [score] raises [AttributeError]. *)
Definition _draw_card (net : Network) (g : GameController)
    : Result (Card * GameController) :=
  let* (c, d) := Deck.draw_card net false (deck g) in
  match c with
  | Some card =>
      Ok (card, set_players (tell (CardDrawn card) <$> players g) (set_deck d g))
  | None => Raise AttributeError
  end.

(** [for hand in player.hands: hand.add_card(self._draw_card())] over the
    hands [i, i+1, ..., i+k-1] of player [p]. *)
Fixpoint deal_hands (net : Network) (p : nat) (k i : nat) (g : GameController)
    : Result GameController :=
  match k with
  | O => Ok g
  | S k' =>
      let* (c, g1) := _draw_card net g in
      deal_hands net p k' (S i) (upd_hand p i (fun h => add_card h c) g1)
  end.

(** [for player in self.active_players: for hand in player.hands: ...] *)
Fixpoint deal_players (net : Network) (ps : list nat) (g : GameController)
    : Result GameController :=
  match ps with
  | [] => Ok g
  | p :: ps' =>
      let* g1 := deal_hands net p (length (player_hands g p)) 0 g in
      deal_players net ps' g1
  end.

(** [while len(h.cards) < 2: h.add_card(self._draw_card())], [k] being the
    number of cards missing. *)
Fixpoint fill_hand (net : Network) (p j : nat) (k : nat) (g : GameController)
    : Result GameController :=
  match k with
  | O => Ok g
  | S k' =>
      let* (c, g1) := _draw_card net g in
      fill_hand net p j k' (upd_hand p j (fun h => add_card h c) g1)
  end.

Definition hand_at (g : GameController) (p j : nat) : Hand :=
  match player_hands g p !! j with Some h => h | None => Hand_init [] end.

(** [for h in player.hands: while len(h.cards) < 2: ...] over the hands
    [j, ..., j+n-1]. *)
Fixpoint fill_hands (net : Network) (p : nat) (n j : nat) (g : GameController)
    : Result GameController :=
  match n with
  | O => Ok g
  | S n' =>
      let* g1 := fill_hand net p j (2 - length (cards (hand_at g p j))) g in
      fill_hands net p n' (S j) g1
  end.

Section PlayerTurns.

Variable net : Network.
(** [house_copy = copy.deepcopy(self.house)], taken after the deal. *)
Variable house_copy : Hand.

(** One pass of the body of [while playing:] for hand [i] of player [p];
    the boolean is [playing] at the end of the pass. *)
Definition hand_iteration (p i : nat) (g : GameController)
    : Result (bool * GameController) :=
  let g := emit (ShowTable house_copy (Some (p, i))) g in
  match players g !! p with
  | None => Raise IndexError
  | Some pl =>
      (* move = player.play_move(player.hands[0]) *)
      match hands pl !! 0%nat with
      | None => Raise IndexError
      | Some h0 =>
          let move := play_move (strategy pl) (told pl) h0 in
          let g := emit (PlayMove p i 0 h0 move)
                        (upd_player p (tell (MoveAsked h0)) g) in
          let* (playing, g) :=
            match move with
            | HIT =>
                let* (c, g1) := _draw_card net g in
                Ok (true, upd_hand p i (fun h => add_card h c) g1)
            | SPLIT =>
                if can_split (hand_at g p i) then
                  match players g !! p with
                  | None => Raise IndexError
                  | Some pl1 =>
                      let* pl2 := split_hand i pl1 in
                      let g1 := set_players (<[p := pl2]> (players g)) g in
                      let g2 := upd_player p
                                  (fun x => set_coins (coins x - inject_Z (BUY_IN_COST g1))%Q x)
                                  g1 in
                      let* g3 := fill_hands net p (length (player_hands g2 p)) 0 g2 in
                      Ok (true, g3)
                  end
                else Ok (true, g)
            | DOUBLE_DOWN =>
                let g1 := upd_player p
                            (fun x => set_coins (coins x - inject_Z (BUY_IN_COST g))%Q x)
                            g in
                let* (c, g2) := _draw_card net g1 in
                Ok (false, upd_hand p i (fun h => double_down h c) g2)
            | STAND => Ok (false, g)
            | SURRENDER => Ok (false, upd_hand p i set_surrendered g)
            | OTHER => Ok (false, g)
            end in
          (* if hand.score > 21: playing = False *)
          Ok (if score (hand_at g p i) >? 21 then false else playing, g)
      end
  end.

(** [while playing:] for hand [i] of player [p]. *)
Fixpoint play_hand (fuel : nat) (p i : nat) (g : GameController)
    : Result GameController :=
  match fuel with
  | O => OutOfFuel
  | S fuel' =>
      let* (playing, g1) := hand_iteration p i g in
      if playing then play_hand fuel' p i g1 else Ok g1
  end.

(** [for hand in player.hands:] from index [i] on; hands appended by a
    split are reached, the list being read again at every step. *)
Fixpoint play_hands (fuel : nat) (p i : nat) (g : GameController)
    : Result GameController :=
  match fuel with
  | O => OutOfFuel
  | S fuel' =>
      if (i <? length (player_hands g p))%nat then
        let* g1 := play_hand fuel' p i g in
        play_hands fuel' p (S i) g1
      else Ok g
  end.

(** [for player in self.active_players:] *)
Fixpoint play_players (fuel : nat) (ps : list nat) (g : GameController)
    : Result GameController :=
  match ps with
  | [] => Ok g
  | p :: ps' =>
      let* g1 := play_hands fuel p 0 g in
      play_players fuel ps' g1
  end.

End PlayerTurns.

(** ** Dealer and settlement *)

(** The condition of the dealer's loop:
    [self.house.score <= 16 or (self.house.score <= 17 and self.house.is_soft_hand)] *)
Definition house_draws (h : Hand) : bool :=
  (score h <=? 16) || ((score h <=? 17) && is_soft_hand h).

(** [while ...: self.house.add_card(self._draw_card());
                self.view.show_table(self.players, self.house, None)] *)
Fixpoint house_turn (net : Network) (fuel : nat) (g : GameController)
    : Result GameController :=
  match fuel with
  | O => OutOfFuel
  | S fuel' =>
      if house_draws (house g) then
        let* (c, g1) := _draw_card net g in
        let g2 := set_house (add_card (house g1) c) g1 in
        house_turn net fuel' (emit (ShowTable (house g2) None) g2)
      else Ok g
  end.

(** The [if]/[elif] chain that pays one hand; the result is the player's
    balance afterwards. *)
Definition settle_hand (cost : Z) (house : Hand) (coins : Q) (hand : Hand) : Q :=
  if is_surrendered hand then
    (coins + (1 # 2) * inject_Z cost)%Q
  else if (score hand =? 21) && is_blackjack hand then
    (coins + inject_Z (3 * cost))%Q
  else if ((score house <? score hand) && (score hand <=? 21))
          || ((score house >? 21) && (21 >=? score hand)) then
    (coins + inject_Z (if is_double_down hand then cost * 4 else cost * 2))%Q
  else if (score house =? score hand) && (score hand <=? 21) then
    (coins + inject_Z (if negb (is_double_down hand) then cost else cost * 2))%Q
  else coins.

(** [for hand in player.hands: ...] then [player.strategy.on_game_end()] *)
Definition settle_player (cost : Z) (house : Hand) (pl : Player) : Player :=
  tell GameEnd
    (set_coins (fold_left (settle_hand cost house) (hands pl) (coins pl)) pl).

Definition settle_players (ps : list nat) (g : GameController) : GameController :=
  fold_left (fun g p => upd_player p (settle_player (BUY_IN_COST g) (house g)) g) ps g.

(** [for p in self.active_players: p.strategy.house = h] *)
Definition tell_house (h : Hand) (g : GameController) : GameController :=
  fold_left (fun g p => upd_player p (tell (HouseSet h)) g) (active_players g) g.

(** ** [GameController.play_round] *)

(** [filter(lambda x: x.coins >= self.BUY_IN_COST, self.players)], the
    players being named by their index in [self.players]. *)
Fixpoint active_from (cost : Z) (i : nat) (ps : list Player) : list nat :=
  match ps with
  | [] => []
  | pl :: ps' =>
      if coins_ge (coins pl) cost then i :: active_from cost (S i) ps'
      else active_from cost (S i) ps'
  end.

(** The ante: [if player.coins >= cost: player.coins -= cost; player.join_table()] *)
Definition pay_ante (cost : Z) (pl : Player) : Player :=
  if coins_ge (coins pl) cost
  then join_table (set_coins (coins pl - inject_Z cost)%Q pl)
  else pl.

(** [random_shuffle] is the permutation [random.shuffle(self.players)]
    applies.  The boolean is the value returned. *)
Definition play_round (net : Network) (random_shuffle : list Player -> list Player)
    (fuel : nat) (g : GameController) : Result (bool * GameController) :=
  let g := set_players (random_shuffle (players g)) g in
  let cost := BUY_IN_COST g in
  if forallb (fun pl => coins_lt (coins pl) cost) (players g) then Ok (false, g)
  else
    let g := set_active (active_from cost 0 (players g)) g in
    let g := set_players (pay_ante cost <$> players g) g in
    let g := set_house (Hand_init []) g in
    let* g := deal_players net (active_players g) g in
    let* (c, g) := _draw_card net g in
    let g := set_house (add_card (house g) c) g in
    let* g := deal_players net (active_players g) g in
    let house_copy := house g in
    let house_cards := cards (house g) in
    let g := tell_house (house g) g in
    let* g := play_players net house_copy fuel (active_players g) g in
    let g := tell_house (house g) g in
    let g := set_house (Hand_init house_cards) g in
    (* self.house.add_card(self.deck.draw_card()), not announced *)
    let* (c, d) := Deck.draw_card net false (deck g) in
    match c with
    | None => Raise AttributeError
    | Some card =>
        let g := set_house (add_card (house g) card) (set_deck d g) in
        let* g := house_turn net fuel g in
        Ok (true, settle_players (active_players g) g)
    end.

(** ** [GameController.start_game] *)

Definition PLAYER_START_COINS : Z := 1000.

(** [Player(name, strategy, coins)]: no hands yet. *)
Definition Player_init (name : string) (s : Strategy) (coins : Z) : Player :=
  mkPlayer name [] (inject_Z coins) s [].

(** [for i in range(players_count): Player(self.view.ask_name(i + 1), ...)],
    from [i] on. *)
Fixpoint seat_humans (ask_name : nat -> string) (human : Strategy)
    (start_coins : Z) (k i : nat) : list Player :=
  match k with
  | O => []
  | S k' =>
      Player_init (ask_name (S i)) human start_coins
      :: seat_humans ask_name human start_coins k' (S i)
  end.

(** [start_game(strategy_classes)].  The answers of the view are
    parameters: the three counts and [ask_name]; [human] is the
    [HumanStrategy] every human player gets; a strategy class is given by
    the name it carries and the strategy it builds.  Without strategy
    classes every bot is [random.choice(strategies)] with [strategies = []],
    an [IndexError]. *)
Definition start_game (random_shuffle : list Card -> list Card)
    (decks_count players_count bots_count : nat)
    (ask_name : nat -> string) (human : Strategy) (start_coins : Z)
    (strategy_classes : option (list (string * Strategy)))
    (g : GameController) : Result GameController :=
  let g := set_deck (Deck.init random_shuffle decks_count true) g in
  let g := set_house (Hand_init []) g in
  let g := set_players
             (players g ++ seat_humans ask_name human start_coins players_count 0) g in
  match strategy_classes with
  | None =>
      match bots_count with
      | O => Ok g
      | S _ => Raise IndexError
      end
  | Some classes =>
      Ok (set_players
            (players g
             ++ ((fun c : string * Strategy => Player_init (fst c) (snd c) start_coins)
                 <$> classes)) g)
  end.

(** [GameController(view)]: an empty hand for the house, no players.  The
    deck is [None] until [start_game]; the record holds an empty one. *)
Definition GameController_init : GameController :=
  mkGame 10 (Hand_init []) [] (Deck.mk 0 false None [] 0) [] [].

(** ** [StudentStrategy] of strategy_template.py *)

(** [play_move] returns [Move.STAND]; both notifications do nothing. *)
Definition StudentStrategy : Strategy := mkStrategy (fun _ _ => STAND).

(** ** Test data *)

Definition no_network : Network := fun _ => NetworkError.

Definition card (v : Rank) (s : Suit) : Card := Card_init v s (card_code v s).

Definition hand_of (vs : list Rank) : Hand :=
  Hand_init (map (fun v => card v SPADES) vs).

Definition always (m : Move) : Strategy := mkStrategy (fun _ _ => m).

(** Split at the first question, stand afterwards. *)
Definition split_once : Strategy :=
  mkStrategy (fun told _ =>
    if existsb (fun n => match n with MoveAsked _ => true | _ => false end) told
    then STAND else SPLIT).

Definition local_deck (pile : list Card) : Deck.t :=
  Deck.mk 1 false None pile (Z.of_nat (length pile)).

Definition new_game (ps : list Player) (pile : list Card) : GameController :=
  mkGame 10 (Hand_init []) ps (local_deck pile) [] [].

(** * Notions used by the statements *)

(** ** The score as the specification words it *)

(** JACK/QUEEN/KING = 10, numeric cards = face value, ACE = 1. *)
Definition rank_value (v : Rank) : Z :=
  match v with
  | R2 => 2 | R3 => 3 | R4 => 4 | R5 => 5 | R6 => 6 | R7 => 7 | R8 => 8
  | R9 => 9 | R10 => 10 | JACK => 10 | QUEEN => 10 | KING => 10 | ACE => 1
  end.

Definition is_ace (c : Card) : bool := bool_decide (value c = ACE).

(** The total with every ace counted as 1. *)
Definition hard_total (h : Hand) : Z :=
  foldr Z.add 0 (map (fun c => rank_value (value c)) (cards h)).

(** Each ace of the hand in turn: 10 more when the running total stays
    at most 21. *)
Fixpoint soft_promotion (cs : list Card) (total : Z) : Z :=
  match cs with
  | [] => total
  | c :: cs' =>
      soft_promotion cs'
        (if is_ace c then (if total + 10 <=? 21 then total + 10 else total)
         else total)
  end.

Definition score_spec (h : Hand) : Z := soft_promotion (cards h) (hard_total h).

Definition count_aces (cs : list Card) : nat :=
  length (filter (fun c => is_ace c = true) cs).

(** ** Hands *)


(** Exactly two cards, of equal rank. *)
Definition splittable (h : Hand) : Prop :=
  exists c0 c1, cards h = [c0; c1] /\ value c0 = value c1.

(** ** Remote answers *)

(** The address [draw_card] asks with session [i]. *)
Definition draw_url (i : string) : string :=
  DECK_BASE_API +:+ i +:+ "/draw/?count=1".

(** A service that answers every request with the same body. *)
Definition answering (b : Body) : Network := fun _ => Json b.

(** A card as the service spells it. *)
Definition raw (c : Card) : RawCard :=
  mkRawCard (Some (value_str (value c))) (Some (suit_str (suit c))) (Some (code c)).

(** ** The turn of a hand *)

(** The state in which an answer [m] is applied: the table was shown and
    the strategy was asked about [h0]. *)
Definition asked (house_copy : Hand) (p i : nat) (h0 : Hand) (m : Move)
    (g : GameController) : GameController :=
  emit (PlayMove p i 0 h0 m)
    (upd_player p (tell (MoveAsked h0))
       (emit (ShowTable house_copy (Some (p, i))) g)).

(** ** Balances *)

(** A balance that is a whole number of chips. *)
Definition integral (q : Q) : Prop := exists z : Z, (q == inject_Z z)%Q.

(** The player paid a fee beyond the ante this round: a split leaves two
    hands or more, a double-down leaves a hand marked. *)
Definition fee_paid (pl : Player) : Prop :=
  (2 <= length (hands pl))%nat
  \/ Exists (fun h => is_double_down h = true) (hands pl).

(** How a player's record may evolve during the turns, the dealer's play
    and the settlement. *)
Definition follows (pl pl' : Player) : Prop :=
  (length (hands pl) <= length (hands pl'))%nat
  /\ (fee_paid pl -> fee_paid pl')
  /\ (fee_paid pl' \/ (coins pl <= coins pl')%Q)
  /\ (integral (coins pl) -> integral (coins pl')).

(** The same between two states of the controller: the ante is kept, every
    player follows, and the trace only grows. *)
Definition extends (g g' : GameController) : Prop :=
  BUY_IN_COST g' = BUY_IN_COST g
  /\ Forall2 follows (players g) (players g')
  /\ trace g `prefix_of` trace g'.




(** ** Seats *)

(** The same player later on: same name, same strategy, told at least as
    much. *)
Definition same_person (x y : Player) : Prop :=
  name y = name x /\ strategy y = strategy x /\ told x `prefix_of` told y.

(** Between two states of the controller: the seats are the same persons,
    the active list is kept, and outside the seats [S] hands and balances
    are untouched. *)
Definition kept (S : nat -> Prop) (g g' : GameController) : Prop :=
  length (players g') = length (players g)
  /\ active_players g' = active_players g
  /\ forall j x y, players g !! j = Some x -> players g' !! j = Some y ->
       same_person x y /\ (~ S j -> hands y = hands x /\ coins y = coins x).


(** ** Rounds without fees *)

(** The two flags of a hand. *)
Definition flags (h : Hand) : bool * bool := (is_double_down h, is_surrendered h).

(** A player whose strategy, balance and hand flags are what they were (the
    hands may have received cards). *)
Definition still (x y : Player) : Prop :=
  strategy y = strategy x /\ coins y = coins x
  /\ flags <$> hands y = flags <$> hands x.

(** Between two states: [n] cards left the local pile, no session was
    opened, and every player is [still]. *)
Definition calm (n : nat) (g g' : GameController) : Prop :=
  Deck.id (deck g') = None
  /\ (length (Deck._backup_deck (deck g')) + n
      = length (Deck._backup_deck (deck g)))%nat
  /\ active_players g' = active_players g
  /\ BUY_IN_COST g' = BUY_IN_COST g
  /\ Forall2 still (players g) (players g').

(** ** Tables *)

(** A player holding {2, 3, 4} who answers DOUBLE_DOWN, a 5 on the pile. *)
Definition three_card_table : GameController :=
  mkGame 10 (Hand_init [])
    [mkPlayer "p" [hand_of [R2; R3; R4]] 100 (always DOUBLE_DOWN) []]
    (local_deck [card R5 SPADES]) [0%nat] [].

(** A table after the deal: the player holds [cs], the pile is [pile]. *)
Definition dealt_table (s : Strategy) (cs : list Rank) (pile : list Rank)
    : GameController :=
  mkGame 10 (hand_of [R9])
    [mkPlayer "a" [hand_of cs] 90 s []]
    (local_deck (map (fun v => card v SPADES) pile)) [0%nat] [].

(** A player dealt {7, 7} who splits once and then stands, the pile giving
    10 to the first hand and 5 to the second. *)
Definition split_table : GameController :=
  new_game [mkPlayer "a" [] 100 split_once []]
    (map (fun v => card v SPADES) [R8; R5; R10; R7; R9; R7]).


(** One player with 10 chips who stands, one with 5 chips who cannot pay
    the ante. *)
Definition standing_table : GameController :=
  new_game [mkPlayer "a" [] 10 (always STAND) [];
            mkPlayer "b" [] 5 (always HIT) []]
    (map (fun v => card v SPADES) [R7; KING; R6; R10; R10]).

(** Two players of [StudentStrategy] with the start balance, one pack
    in pack order. *)
Definition student_table : GameController :=
  new_game [mkPlayer "StudentStrategy" [] 1000 StudentStrategy [];
            mkPlayer "StudentStrategy" [] 1000 StudentStrategy []]
    (concat (replicate 1 _generate_backup_pile)).

(** * Scoring *)

Lemma score_card_fold cs : forall s n,
  fold_left score_card cs (s, n)
  = (s + foldr Z.add 0 (map (fun c => rank_value (value c)) cs),
     (n + count_aces cs)%nat).
Proof.
  induction cs as [|c cs IH]; intros s n; simpl.
  - f_equal; [lia | unfold count_aces; simpl; lia].
  - unfold count_aces in *.
    destruct c as [v su co td]; destruct v; simpl; rewrite IH;
      rewrite ?filter_cons; simpl;
      repeat case_decide; try congruence; simpl; f_equal; lia.
Qed.

Lemma soft_promotion_count cs : forall t,
  soft_promotion cs t = promote_aces (count_aces cs) t.
Proof.
  unfold count_aces.
  induction cs as [|c cs IH]; intros t; simpl; [reflexivity|].
  rewrite filter_cons. destruct (is_ace c) eqn:Hc.
  - rewrite decide_True by reflexivity. simpl. rewrite IH.
    f_equal. destruct (t + 10 <=? 21); lia.
  - rewrite decide_False by discriminate. apply IH.
Qed.

Lemma rank_value_pos v : 1 <= rank_value v.
Proof. destruct v; simpl; lia. Qed.

Lemma hard_total_cards_nonneg cs :
  0 <= foldr Z.add 0 (map (fun c => rank_value (value c)) cs).
Proof.
  induction cs as [|c cs IH]; simpl; [lia|].
  pose proof (rank_value_pos (value c)). lia.
Qed.

(** Past 11 no further ace can be promoted. *)
Lemma promote_aces_stuck n : forall t, 11 < t -> promote_aces n t = t.
Proof.
  induction n as [|n IH]; intros t Ht; simpl; [reflexivity|].
  destruct (t + 10 <=? 21) eqn:E; [apply Z.leb_le in E; lia|].
  rewrite Z.add_0_r. apply IH, Ht.
Qed.

(** At most one ace is ever counted as 11. *)
Lemma promote_aces_once n t :
  Z.of_nat n <= t ->
  promote_aces n t = if (0 <? n)%nat && (t + 10 <=? 21) then t + 10 else t.
Proof.
  intros Ht. induction n as [|n IH]; simpl; [reflexivity|].
  destruct (t + 10 <=? 21) eqn:E.
  - destruct n as [|n]; [reflexivity|]. apply promote_aces_stuck. lia.
  - rewrite Z.add_0_r, IH by lia. rewrite andb_false_r. reflexivity.
Qed.

Lemma score_unfold h :
  score h = promote_aces (count_aces (cards h)) (hard_total h).
Proof.
  unfold score, hard_total. rewrite score_card_fold. reflexivity.
Qed.

Lemma count_aces_pos cs : (0 <? count_aces cs)%nat = existsb is_ace cs.
Proof.
  unfold count_aces. induction cs as [|c cs IH]; simpl; [reflexivity|].
  rewrite filter_cons. destruct (is_ace c) eqn:Hc.
  - rewrite decide_True by reflexivity. reflexivity.
  - rewrite decide_False by discriminate. apply IH.
Qed.

Lemma count_aces_le_total cs :
  Z.of_nat (count_aces cs) <= foldr Z.add 0 (map (fun c => rank_value (value c)) cs).
Proof.
  unfold count_aces. induction cs as [|c cs IH]; simpl; [lia|].
  pose proof (rank_value_pos (value c)).
  rewrite filter_cons. destruct (decide (is_ace c = true)); simpl; lia.
Qed.

(** The score in closed form: the hard total, plus 10 when the hand holds an
    ace and the hard total is at most 11. *)
Lemma score_closed_form h :
  score h = if existsb is_ace (cards h) && (hard_total h + 10 <=? 21)
            then hard_total h + 10 else hard_total h.
Proof.
  rewrite score_unfold.
  destruct (cards h) as [|c cs] eqn:Hcs.
  - unfold hard_total. rewrite Hcs. reflexivity.
  - rewrite promote_aces_once, count_aces_pos; [reflexivity|].
    rewrite <- Hcs. apply count_aces_le_total.
Qed.

Lemma max_by_key_true {A} (k : A -> bool) xs : forall best,
  k (max_by_key k best xs) = k best || existsb k xs.
Proof.
  induction xs as [|x xs IH]; intros best; simpl.
  - rewrite orb_false_r. reflexivity.
  - destruct (k best) eqn:Hb; simpl.
    + rewrite IH, Hb. reflexivity.
    + destruct (k x) eqn:Hx; simpl; rewrite IH.
      * rewrite Hx. reflexivity.
      * rewrite Hb. reflexivity.
Qed.

(** [is_soft_hand] looks at the ranks only: it holds exactly when the hand
    holds an ace. *)
Lemma is_soft_hand_has_ace h : is_soft_hand h = existsb is_ace (cards h).
Proof.
  unfold is_soft_hand. destruct (cards h) as [|c cs]; [reflexivity|].
  exact (max_by_key_true is_ace cs c).
Qed.

Lemma house_draws_iff h :
  house_draws h = true <->
  score h <= 16 \/ (score h = 17 /\ existsb is_ace (cards h) = true).
Proof.
  unfold house_draws. rewrite is_soft_hand_has_ace.
  rewrite orb_true_iff, andb_true_iff, !Z.leb_le.
  destruct (existsb is_ace (cards h)); intuition (try lia; try discriminate).
Qed.

(** C2.  For every hand, [score] is the sum of the rank values (faces 10,
    numeric cards their face value, ace 1) followed by the promotion of the
    aces one at a time, 10 more whenever the running total stays at most 21;
    {ACE, ACE} scores 12, and {ACE, KING} scores 21 and is a blackjack. *)
Theorem score_is_soft_ace_sum :
  (forall h, score h = score_spec h)
  /\ score (hand_of [ACE; ACE]) = 12
  /\ score (hand_of [ACE; KING]) = 21
  /\ is_blackjack (hand_of [ACE; KING]) = true.
Proof.
  split; [|repeat split; reflexivity].
  intros h. unfold score_spec.
  rewrite soft_promotion_count. apply score_unfold.
Qed.

(** C4.  [is_soft_hand] on {ACE, 10, 5}: the hand scores 16, which is its
    hard total (the ace counts 1), and yet the property answers [True]. *)
Theorem soft_hand_on_hard_sixteen :
  let h := hand_of [ACE; R10; R5] in
  is_soft_hand h = true /\ score h = 16 /\ score h = hard_total h.
Proof. repeat split; reflexivity. Qed.

(** C3.  The dealer's loop on {ACE, 6, 10}: a hard 17 (the score is the
    hard total), on which the loop condition holds; with a 5 on top of the
    pile the dealer draws it and ends on 22.  On {10, 7} the loop stops and
    on {ACE, 6} it draws. *)
Theorem dealer_draws_on_hard_seventeen :
  let h := hand_of [ACE; R6; R10] in
  score h = 17 /\ score h = hard_total h /\ house_draws h = true
  /\ (exists g',
        house_turn no_network 3
          (set_house h (new_game [] [card R5 SPADES])) = Ok g'
        /\ map value (cards (house g')) = [ACE; R6; R10; R5]
        /\ score (house g') = 22)
  /\ house_draws (hand_of [R10; R7]) = false
  /\ house_draws (hand_of [ACE; R6]) = true.
Proof.
  repeat split; try reflexivity.
  eexists. repeat split; vm_compute; reflexivity.
Qed.

(** * Settlement *)





(** * The card supplies *)

Lemma pop_snoc {A} (l : list A) (x : A) : pop (l ++ [x]) = Some (x, l).
Proof. unfold pop. rewrite last_snoc, removelast_last. reflexivity. Qed.

Lemma pop_nil {A} : pop (@nil A) = None.
Proof. reflexivity. Qed.

Lemma pop_Some_length {A} (l r : list A) (x : A) :
  pop l = Some (x, r) -> length l = S (length r).
Proof.
  destruct l as [|y l'] using rev_ind; [discriminate|].
  rewrite pop_snoc. intros [= -> ->]. rewrite length_app. simpl. lia.
Qed.

Lemma pop_of_length {A} (l : list A) (k : nat) :
  length l = S k -> exists x r, pop l = Some (x, r) /\ length r = k.
Proof.
  destruct l as [|y l'] using rev_ind; [discriminate|].
  rewrite length_app. simpl. intros H.
  exists y, l'. rewrite pop_snoc. split; [reflexivity | lia].
Qed.

Lemma backup_pile_length : length _generate_backup_pile = 52%nat.
Proof. reflexivity. Qed.

Lemma piles_length (n : nat) :
  length (concat (replicate n _generate_backup_pile)) = (52 * n)%nat.
Proof.
  induction n as [|n IH]; [reflexivity|].
  cbn [replicate concat]. rewrite length_app, IH, backup_pile_length. lia.
Qed.

(** Without a session a draw never asks the network: it pops the pile, or
    raises [IndexError] on the empty pile. *)
Lemma draw_card_local net td d :
  Deck.id d = None -> Deck.draw_card net td d = Deck.pop_local td d.
Proof. unfold Deck.draw_card. intros ->. reflexivity. Qed.

(** [k] draws without a session from a pile of [k] cards succeed, each
    giving a card, and leave the pile empty. *)
Lemma draw_cards_exhaust net : forall k d,
  Deck.id d = None -> length (Deck._backup_deck d) = k ->
  exists cs d',
    Deck.draw_cards net k d = Ok (cs, d')
    /\ length cs = k /\ Forall is_Some cs
    /\ Deck.id d' = None /\ Deck._backup_deck d' = [].
Proof.
  induction k as [|k IH]; intros d Hid Hlen.
  - exists [], d. simpl. repeat split; auto.
    destruct (Deck._backup_deck d); [reflexivity | discriminate].
  - destruct (pop_of_length _ _ Hlen) as (x & r & Hpop & Hr).
    simpl. rewrite draw_card_local by exact Hid.
    unfold Deck.pop_local. rewrite Hpop. simpl.
    set (d1 := Deck.mk _ _ _ _ _).
    destruct (IH d1) as (cs & d' & Hcs & Hl & Hall & Hid' & Hpile);
      [exact Hid | exact Hr |].
    rewrite Hcs. simpl. exists (Some (set_top_down x false) :: cs), d'.
    repeat split; auto.
    simpl. lia.
Qed.

(** C9.  A supply of blackjack.py created with [n] decks holds [52 * n]
    cards: that many draws succeed, each with a card, and empty the pile; the
    next draw, on the empty pile, raises [IndexError] where the
    specification has it return the absent-card value. *)
Theorem draw_on_empty_supply_raises
    (net : Network) (random_shuffle : list Card -> list Card)
    (n : nat) (shuffle td : bool) :
  (forall l, length (random_shuffle l) = length l) ->
  exists cs d',
    Deck.draw_cards net (52 * n) (Deck.init random_shuffle n shuffle) = Ok (cs, d')
    /\ length cs = (52 * n)%nat /\ Forall is_Some cs
    /\ Deck._backup_deck d' = []
    /\ Deck.draw_card net td d' = Raise IndexError.
Proof.
  intros Hperm.
  destruct (draw_cards_exhaust net (52 * n) (Deck.init random_shuffle n shuffle))
    as (cs & d' & Hcs & Hl & Hall & Hid & Hpile).
  - reflexivity.
  - unfold Deck.init. cbn [Deck._backup_deck].
    destruct shuffle; rewrite ?Hperm; apply piles_length.
  - exists cs, d'. repeat split; auto.
    rewrite draw_card_local by exact Hid.
    unfold Deck.pop_local. rewrite Hpile. reflexivity.
Qed.

Lemma draw_on_empty_supply_raises_witness :
  exists cs d',
    Deck.draw_cards no_network (52 * 1) (Deck.init (fun l => l) 1 false) = Ok (cs, d')
    /\ length cs = (52 * 1)%nat /\ Forall is_Some cs
    /\ Deck._backup_deck d' = []
    /\ Deck.draw_card no_network false d' = Raise IndexError.
Proof.
  apply (draw_on_empty_supply_raises no_network (fun l => l) 1 false false).
  intros l. reflexivity.
Defined.

(** The sibling in deck.py checks the pile first: without a session the draw
    on the empty pile returns [None]. *)
Lemma deckpy_draw_on_empty_returns_none net td d :
  DeckPy.id d = None -> DeckPy._backup_deck d = [] ->
  DeckPy.draw_card net td d = Ok (None, d).
Proof.
  intros Hid Hpile. unfold DeckPy.draw_card. rewrite Hid. simpl.
  rewrite Hpile. reflexivity.
Qed.

(** ** Draws with a remote session *)

(** The remote service reports no cards while the local pile still holds a
    king: the draw of blackjack.py returns [None] and leaves the pile as it
    is, and the draw of deck.py raises [IndexError]. *)
Lemma remote_without_cards_gives_no_card :
  let net := answering (mkBody None (Some "abc") (Some 0) (Some [])) in
  let pile := [card KING SPADES] in
  (exists d', Deck.draw_card net false (Deck.mk 1 false (Some "abc") pile 1)
              = Ok (None, d')
              /\ Deck._backup_deck d' = pile)
  /\ (forall c d', Deck.draw_card net false (Deck.mk 1 false (Some "abc") pile 1)
                   <> Ok (Some c, d'))
  /\ DeckPy.draw_card net false (DeckPy.mk pile 1 (Some "abc") 1 false)
     = Raise IndexError.
Proof.
  intros net pile. split; [|split].
  - eexists. split; reflexivity.
  - intros c d' H. vm_compute in H. discriminate H.
  - reflexivity.
Qed.

(** A transport failure or a body that is not JSON leaves [_request] of
    blackjack.py as the exception it is: the [except] clause names
    [KeyError] only. *)
Lemma remote_failure_propagates td d :
  Deck.truthy (Deck.id d) = true ->
  Deck.draw_card (fun _ => NetworkError) td d = Raise RequestException
  /\ Deck.draw_card (fun _ => Malformed) td d = Raise ValueError.
Proof.
  intros H. unfold Deck.draw_card, Deck._request, Deck.request_body.
  rewrite H. split; reflexivity.
Qed.

Lemma request_pile net url d resp d1 :
  Deck._request net url d = Ok (resp, d1) ->
  Deck._backup_deck d1 = Deck._backup_deck d.
Proof.
  unfold Deck._request, Deck.request_body.
  destruct (net url) as [| |b]; simpl; try discriminate.
  destruct (b_deck_id b); [destruct (b_remaining b)|]; simpl;
    intros [= <- <-]; reflexivity.
Qed.

Lemma request_json net url d b :
  net url = Json b -> exists d1, Deck._request net url d = Ok (Some b, d1).
Proof.
  intros Hn. unfold Deck._request, Deck.request_body. rewrite Hn.
  destruct (b_deck_id b); [destruct (b_remaining b)|]; simpl; eauto.
Qed.

(** C10, as the code has it.  With a session held and an answer that is a
    JSON object: when the answer carries a card (with its three keys), the
    draw returns a card — the remote one, removed from the local pile, if the
    pile holds it, and otherwise the top of the local pile by fallback, the
    pile being non-empty; both decks agree on this.  When the answer reports
    no cards, the draw of blackjack.py returns [None] and leaves the pile
    untouched. *)
Theorem remote_draw_fallback
    (net : Network) (td : bool) (i : string) (b : Body)
    (pile : list Card) (n : nat) (sh : bool) (rem : Z) :
  i <> EmptyString ->
  net (draw_url i) = Json b ->
  let d := Deck.mk n sh (Some i) pile rem in
  let dpy := DeckPy.mk pile rem (Some i) n sh in
  (forall v s c rest, b_cards b = Some (mkRawCard (Some v) (Some s) (Some c) :: rest) ->
     (forall x pile', list_remove (Card_eq_raw v s c) pile = Some (x, pile') ->
        (exists d', Deck.draw_card net td d = Ok (Some (set_top_down x td), d')
                    /\ Deck._backup_deck d' = pile')
        /\ (exists d', DeckPy.draw_card net td dpy = Ok (Some (set_top_down x td), d')
                    /\ DeckPy._backup_deck d' = pile'))
     /\ (forall top pile', list_remove (Card_eq_raw v s c) pile = None ->
           pop pile = Some (top, pile') ->
        (exists d', Deck.draw_card net td d = Ok (Some (set_top_down top td), d')
                    /\ Deck._backup_deck d' = pile'
                    /\ Deck.remaining d' = Z.of_nat (length pile'))
        /\ (exists d', DeckPy.draw_card net td dpy = Ok (Some (set_top_down top td), d')
                    /\ DeckPy._backup_deck d' = pile'
                    /\ DeckPy.remaining d' = Z.of_nat (length pile'))))
  /\ (b_cards b = Some [] ->
      exists d', Deck.draw_card net td d = Ok (None, d')
                 /\ Deck._backup_deck d' = pile).
Proof.
  intros Hi Hn d dpy.
  assert (Ht : Deck.truthy (Deck.id d) = true).
  { simpl. rewrite bool_decide_eq_false_2 by exact Hi. reflexivity. }
  destruct (request_json net (draw_url i) d b Hn) as [d1 Hreq].
  pose proof (request_pile _ _ _ _ _ Hreq) as Hpile. simpl in Hpile.
  split.
  - intros v s c rest Hcards. split.
    + intros x pile' Hrm. split.
      * unfold Deck.draw_card. rewrite Ht.
        change (DECK_BASE_API +:+ Deck.id_str (Deck.id d) +:+ "/draw/?count=1")
          with (draw_url i).
        rewrite Hreq. simpl. rewrite Hcards. simpl. rewrite Hpile, Hrm.
        eexists. split; reflexivity.
      * unfold DeckPy.draw_card, DeckPy._request. simpl.
        change (DECK_BASE_API +:+ i +:+ "/draw/?count=1") with (draw_url i).
        rewrite Hn. simpl. rewrite Hcards. simpl. rewrite Hrm.
        eexists. split; reflexivity.
    + intros top pile' Hrm Hpop. split.
      * unfold Deck.draw_card. rewrite Ht.
        change (DECK_BASE_API +:+ Deck.id_str (Deck.id d) +:+ "/draw/?count=1")
          with (draw_url i).
        rewrite Hreq. simpl. rewrite Hcards. simpl. rewrite Hpile, Hrm.
        unfold Deck.pop_local. rewrite Hpile, Hpop.
        eexists. repeat split; reflexivity.
      * unfold DeckPy.draw_card, DeckPy._request. simpl.
        change (DECK_BASE_API +:+ i +:+ "/draw/?count=1") with (draw_url i).
        rewrite Hn. simpl. rewrite Hcards. simpl. rewrite Hrm, Hpop.
        eexists. repeat split; reflexivity.
  - intros Hcards. unfold Deck.draw_card. rewrite Ht.
    change (DECK_BASE_API +:+ Deck.id_str (Deck.id d) +:+ "/draw/?count=1")
      with (draw_url i).
    rewrite Hreq. simpl. rewrite Hcards. eexists. split; [reflexivity | exact Hpile].
Qed.

Lemma remote_draw_fallback_witness :
  let pile := [card KING SPADES; card ACE SPADES] in
  let held := Deck.mk 1 false (Some "abc") pile 2 in
  (exists d', Deck.draw_card
                (answering (mkBody None (Some "abc") (Some 1) (Some [raw (card KING SPADES)])))
                false held
              = Ok (Some (card KING SPADES), d')
              /\ Deck._backup_deck d' = [card ACE SPADES])
  /\ (exists d', Deck.draw_card
                (answering (mkBody None (Some "abc") (Some 1) (Some [raw (card R2 HEARTS)])))
                false held
              = Ok (Some (card ACE SPADES), d')
              /\ Deck._backup_deck d' = [card KING SPADES]
              /\ Deck.remaining d' = 1)
  /\ (exists d', Deck.draw_card
                (answering (mkBody None (Some "abc") (Some 0) (Some [])))
                false held
              = Ok (None, d')
              /\ Deck._backup_deck d' = pile).
Proof.
  intros pile held.
  assert (Hi : "abc" <> EmptyString) by discriminate.
  split; [|split].
  - pose (b := mkBody None (Some "abc") (Some 1) (Some [raw (card KING SPADES)])).
    destruct (remote_draw_fallback (answering b) false "abc" b pile 1 false 2
                Hi eq_refl) as [H _].
    destruct (H _ _ _ _ eq_refl) as [Hfound _].
    destruct (Hfound (card KING SPADES) [card ACE SPADES] eq_refl) as [Hbj _].
    exact Hbj.
  - pose (b := mkBody None (Some "abc") (Some 1) (Some [raw (card R2 HEARTS)])).
    destruct (remote_draw_fallback (answering b) false "abc" b pile 1 false 2
                Hi eq_refl) as [H _].
    destruct (H _ _ _ _ eq_refl) as [_ Hmissing].
    destruct (Hmissing (card ACE SPADES) [card KING SPADES] eq_refl eq_refl)
      as [Hbj _].
    exact Hbj.
  - pose (b := mkBody None (Some "abc") (Some 0) (Some [])).
    destruct (remote_draw_fallback (answering b) false "abc" b pile 1 false 2
                Hi eq_refl) as [_ H].
    exact (H eq_refl).
Defined.

(** * The turn of one hand *)

Lemma alter_as_insert {A} (f : A -> A) (l : list A) (i : nat) (x : A) :
  l !! i = Some x -> alter f i l = <[i := f x]> l.
Proof.
  revert i. induction l as [|y l IH]; intros [|i] H; simpl in *;
    try discriminate.
  - injection H as ->. reflexivity.
  - f_equal. apply IH, H.
Qed.

Lemma lookup_upd_player_eq g p f :
  players (upd_player p f g) !! p = f <$> players g !! p.
Proof. apply list_lookup_alter_eq. Qed.

Lemma lookup_upd_player_ne g p j f :
  p <> j -> players (upd_player p f g) !! j = players g !! j.
Proof. apply list_lookup_alter_ne. Qed.

Lemma lookup_draw_card net g c g' j :
  _draw_card net g = Ok (c, g') ->
  players g' !! j = tell (CardDrawn c) <$> players g !! j.
Proof.
  unfold _draw_card.
  destruct (Deck.draw_card net false (deck g)) as [[[c'|] d]| |]; simpl;
    try discriminate.
  intros [= <- <-]. simpl. apply list_lookup_fmap.
Qed.

(** A draw without a session: the top of the pile, face up, announced to
    every player. *)
Lemma draw_card_top net g c rest :
  Deck.id (deck g) = None ->
  pop (Deck._backup_deck (deck g)) = Some (c, rest) ->
  exists d',
    _draw_card net g
    = Ok (set_top_down c false,
          set_players (tell (CardDrawn (set_top_down c false)) <$> players g)
                      (set_deck d' g))
    /\ Deck.id d' = None /\ Deck._backup_deck d' = rest.
Proof.
  intros Hid Hpop. unfold _draw_card.
  rewrite draw_card_local by exact Hid.
  unfold Deck.pop_local. rewrite Hpop. simpl.
  eexists. split; [reflexivity | split; [exact Hid | reflexivity]].
Qed.

(** C5, as the code has it.  A DOUBLE_DOWN answer is applied to the hand
    being played whatever its number of cards and whatever was split or
    doubled before: with a card on the pile, one ante is deducted, the top
    card is added to the hand, [is_double_down] is set and the hand's turn
    ends, whatever the resulting score. *)
Theorem double_down_always_applies
    (net : Network) (house_copy : Hand) (p i : nat) (g : GameController)
    (pl : Player) (h0 h : Hand) (c : Card) (rest : list Card) :
  players g !! p = Some pl ->
  hands pl !! 0%nat = Some h0 ->
  play_move (strategy pl) (told pl) h0 = DOUBLE_DOWN ->
  hands pl !! i = Some h ->
  Deck.id (deck g) = None ->
  pop (Deck._backup_deck (deck g)) = Some (c, rest) ->
  exists g',
    hand_iteration net house_copy p i g = Ok (false, g')
    /\ (forall fuel, play_hand net house_copy (S fuel) p i g = Ok g')
    /\ player_coins g' p = (coins pl - inject_Z (BUY_IN_COST g))%Q
    /\ player_hands g' p = <[i := double_down h (set_top_down c false)]> (hands pl)
    /\ Deck._backup_deck (deck g') = rest.
Proof.
  intros Hp H0 Hmove Hi Hid Hpop.
  set (g0 := emit (PlayMove p i 0 h0 DOUBLE_DOWN)
               (upd_player p (tell (MoveAsked h0))
                  (emit (ShowTable house_copy (Some (p, i))) g))).
  set (g1 := upd_player p
               (fun x => set_coins (coins x - inject_Z (BUY_IN_COST g0))%Q x) g0).
  destruct (draw_card_top net g1 c rest Hid Hpop) as (d' & Hdraw & _ & Hrest).
  assert (Hiter : hand_iteration net house_copy p i g
                  = Ok (false,
                        upd_hand p i (fun h => double_down h (set_top_down c false))
                          (set_players
                             (tell (CardDrawn (set_top_down c false)) <$> players g1)
                             (set_deck d' g1)))).
  { unfold hand_iteration. cbn [players emit]. rewrite Hp, H0, Hmove.
    fold g0. fold g1. rewrite Hdraw. cbn [bind].
    destruct (score _ >? 21); reflexivity. }
  eexists. split; [exact Hiter|]. split; [|split; [|split]].
  - intros fuel. cbn [play_hand]. rewrite Hiter. reflexivity.
  - unfold player_coins, upd_hand. rewrite lookup_upd_player_eq.
    cbn [players set_players set_deck]. rewrite list_lookup_fmap.
    subst g1 g0. rewrite lookup_upd_player_eq. cbn [players emit].
    rewrite lookup_upd_player_eq. cbn [players emit]. rewrite Hp. reflexivity.
  - unfold player_hands, upd_hand. rewrite lookup_upd_player_eq.
    cbn [players set_players set_deck]. rewrite list_lookup_fmap.
    subst g1 g0. rewrite lookup_upd_player_eq. cbn [players emit].
    rewrite lookup_upd_player_eq. cbn [players emit]. rewrite Hp.
    cbn. exact (alter_as_insert (fun x => double_down x (set_top_down c false)) _ _ _ Hi).
  - exact Hrest.
Qed.

(** A DOUBLE_DOWN request on the three-card hand {2, 3, 4} is not rejected:
    the ante is deducted, a fourth card is added and the hand is marked. *)
Lemma double_down_on_three_cards_not_rejected :
  exists g',
    hand_iteration no_network (Hand_init []) 0 0 three_card_table = Ok (false, g')
    /\ (player_coins g' 0 == 90)%Q
    /\ ~ (player_coins g' 0 == player_coins three_card_table 0)%Q
    /\ map value (cards (hand_at g' 0 0)) = [R2; R3; R4; R5]
    /\ is_double_down (hand_at g' 0 0) = true
    /\ player_hands g' 0 <> player_hands three_card_table 0.
Proof.
  eexists. split; [vm_compute; reflexivity|].
  repeat split; try reflexivity; vm_compute; discriminate.
Qed.

Lemma double_down_always_applies_witness :
  exists g',
    hand_iteration no_network (Hand_init []) 0 0 three_card_table = Ok (false, g')
    /\ (forall fuel, play_hand no_network (Hand_init []) (S fuel) 0 0 three_card_table
                     = Ok g')
    /\ player_coins g' 0 = (100 - inject_Z 10)%Q
    /\ player_hands g' 0
       = <[0%nat := double_down (hand_of [R2; R3; R4])
                      (set_top_down (card R5 SPADES) false)]>
           [hand_of [R2; R3; R4]]
    /\ Deck._backup_deck (deck g') = [].
Proof.
  apply (double_down_always_applies no_network (Hand_init []) 0 0 three_card_table
           (mkPlayer "p" [hand_of [R2; R3; R4]] 100 (always DOUBLE_DOWN) [])
           (hand_of [R2; R3; R4]) (hand_of [R2; R3; R4]) (card R5 SPADES) []);
    reflexivity.
Defined.

(** ** Hands of a player across the elementary updates *)

Lemma player_hands_tell_all g n p :
  player_hands (set_players (tell n <$> players g) g) p = player_hands g p.
Proof.
  unfold player_hands. cbn [players set_players]. rewrite list_lookup_fmap.
  destruct (players g !! p); reflexivity.
Qed.

Lemma player_hands_upd_tell g q n p :
  player_hands (upd_player q (tell n) g) p = player_hands g p.
Proof.
  unfold player_hands. destruct (decide (q = p)) as [->|Hne].
  - rewrite lookup_upd_player_eq. destruct (players g !! p); reflexivity.
  - rewrite lookup_upd_player_ne by exact Hne. reflexivity.
Qed.

Lemma player_hands_upd_hand g p j f :
  player_hands (upd_hand p j f g) p = alter f j (player_hands g p).
Proof.
  unfold player_hands, upd_hand. rewrite lookup_upd_player_eq.
  destruct (players g !! p); reflexivity.
Qed.

Lemma player_hands_upd_hand_ne g p q j f :
  p <> q -> player_hands (upd_hand p j f g) q = player_hands g q.
Proof.
  intros Hne. unfold player_hands, upd_hand.
  rewrite lookup_upd_player_ne by exact Hne. reflexivity.
Qed.

Lemma player_hands_draw net g c g' p :
  _draw_card net g = Ok (c, g') -> player_hands g' p = player_hands g p.
Proof.
  intros H. unfold player_hands. rewrite (lookup_draw_card _ _ _ _ p H).
  destruct (players g !! p); reflexivity.
Qed.

Lemma player_coins_draw net g c g' p :
  _draw_card net g = Ok (c, g') -> player_coins g' p = player_coins g p.
Proof.
  intros H. unfold player_coins. rewrite (lookup_draw_card _ _ _ _ p H).
  destruct (players g !! p); reflexivity.
Qed.

Lemma player_coins_upd_hand g p q j f :
  player_coins (upd_hand p j f g) q = player_coins g q.
Proof.
  unfold player_coins, upd_hand. destruct (decide (p = q)) as [->|Hne].
  - rewrite lookup_upd_player_eq. destruct (players g !! q); reflexivity.
  - rewrite lookup_upd_player_ne by exact Hne. reflexivity.
Qed.

Lemma draw_card_deck net g c g' :
  _draw_card net g = Ok (c, g') ->
  Deck.draw_card net false (deck g) = Ok (Some c, deck g')
  /\ BUY_IN_COST g' = BUY_IN_COST g /\ trace g' = trace g /\ house g' = house g.
Proof.
  unfold _draw_card.
  destruct (Deck.draw_card net false (deck g)) as [[[c'|] d]| |]; simpl;
    try discriminate.
  intros [= <- <-]. repeat split.
Qed.

Lemma hand_at_lookup g p j h :
  player_hands g p !! j = Some h -> hand_at g p j = h.
Proof. unfold hand_at. intros ->. reflexivity. Qed.

(** Two cards never score above 21. *)
Lemma score_two_cards_le_21 h :
  length (cards h) = 2%nat -> score h <= 21.
Proof.
  intros Hl. rewrite score_closed_form.
  destruct (existsb is_ace (cards h) && (hard_total h + 10 <=? 21)) eqn:E.
  - apply andb_true_iff in E as [_ E]. apply Z.leb_le in E. exact E.
  - unfold hard_total.
    destruct (cards h) as [|a [|b [|? ?]]]; try discriminate. simpl.
    destruct a as [va ? ? ?], b as [vb ? ? ?]; simpl.
    destruct va, vb; simpl in *; try lia; discriminate E.
Qed.

(** ** Filling hands after a split *)




(** ** SPLIT *)

Lemma asked_player house_copy p i h0 m g pl :
  players g !! p = Some pl ->
  players (asked house_copy p i h0 m g) !! p = Some (tell (MoveAsked h0) pl).
Proof.
  intros Hp. unfold asked. cbn [players emit]. rewrite lookup_upd_player_eq.
  cbn [players emit]. rewrite Hp. reflexivity.
Qed.

Lemma asked_hands house_copy p i h0 m g q :
  player_hands (asked house_copy p i h0 m g) q = player_hands g q.
Proof.
  transitivity (player_hands
                  (upd_player p (tell (MoveAsked h0))
                     (emit (ShowTable house_copy (Some (p, i))) g)) q);
    [reflexivity|].
  rewrite player_hands_upd_tell. reflexivity.
Qed.



(** * What a round does to the balances *)

Lemma follows_refl pl : follows pl pl.
Proof.
  split; [lia|]. split; [tauto|]. split; [right; apply Qle_refl | tauto].
Qed.

Lemma follows_trans a b c : follows a b -> follows b c -> follows a c.
Proof.
  intros (L1 & F1 & C1 & I1) (L2 & F2 & C2 & I2).
  split; [lia|]. split; [tauto|]. split; [|tauto].
  destruct C2 as [C2|C2]; [left; exact C2|].
  destruct C1 as [C1|C1]; [left; apply F2, C1|].
  right. eapply Qle_trans; eassumption.
Qed.

Lemma Forall2_follows_refl l : Forall2 follows l l.
Proof. induction l; constructor; [apply follows_refl | assumption]. Qed.

Lemma extends_refl g : extends g g.
Proof. split; [reflexivity|]. split; [apply Forall2_follows_refl | reflexivity]. Qed.

Lemma extends_trans a b c : extends a b -> extends b c -> extends a c.
Proof.
  intros (B1 & P1 & T1) (B2 & P2 & T2).
  split; [congruence|]. split.
  - eapply Forall2_trans; [|exact P1|exact P2]. exact follows_trans.
  - etransitivity; eassumption.
Qed.



Lemma Forall2_follows_alter (f : Player -> Player) l p :
  (forall x, l !! p = Some x -> follows x (f x)) ->
  Forall2 follows l (alter f p l).
Proof.
  intros H. apply Forall2_alter_r; [apply Forall2_follows_refl|].
  intros x y Hx Hy _. rewrite Hx in Hy. injection Hy as <-. apply H, Hx.
Qed.

Lemma Forall2_follows_fmap (f : Player -> Player) l :
  (forall x, follows x (f x)) -> Forall2 follows l (f <$> l).
Proof.
  intros H. apply Forall2_fmap_r.
  induction l; constructor; [apply H | assumption].
Qed.

Lemma follows_tell n pl : follows pl (tell n pl).
Proof. exact (follows_refl pl). Qed.

Lemma extends_upd_player f p g :
  (forall x, players g !! p = Some x -> follows x (f x)) ->
  extends g (upd_player p f g).
Proof.
  intros H. split; [reflexivity|]. split; [|reflexivity].
  apply Forall2_follows_alter, H.
Qed.

Lemma extends_draw net g c g' : _draw_card net g = Ok (c, g') -> extends g g'.
Proof.
  intros H. destruct (draw_card_deck _ _ _ _ H) as (_ & B & T & _).
  split; [exact B|]. split; [|rewrite T; reflexivity].
  revert H. unfold _draw_card.
  destruct (Deck.draw_card net false (deck g)) as [[[c'|] d]| |]; simpl;
    try discriminate.
  intros [= <- <-]. cbn [players set_players].
  apply Forall2_follows_fmap. intros x. apply follows_tell.
Qed.

Lemma Exists_alter_mono {A} (P : A -> Prop) (f : A -> A) (l : list A) (i : nat) :
  (forall x, P x -> P (f x)) -> Exists P l -> Exists P (alter f i l).
Proof.
  intros Hf. revert i. induction l as [|y l IH]; intros i H; [inversion H|].
  destruct i as [|i]; simpl; inversion H; subst.
  - left. apply Hf. assumption.
  - right. assumption.
  - left. assumption.
  - right. apply IH. assumption.
Qed.

(** An update of one hand that never clears [is_double_down]. *)
Lemma follows_alter_hand (f : Hand -> Hand) i pl :
  (forall h, is_double_down h = true -> is_double_down (f h) = true) ->
  follows pl (set_hands (alter f i (hands pl)) pl).
Proof.
  intros Hf. unfold follows, fee_paid. cbn [hands coins set_hands].
  split; [|split; [|split]].
  - rewrite length_alter. lia.
  - intros [H|H]; [left; rewrite length_alter; exact H|].
    right. apply Exists_alter_mono; assumption.
  - right. apply Qle_refl.
  - tauto.
Qed.

Lemma extends_upd_hand f p i g :
  (forall h, is_double_down h = true -> is_double_down (f h) = true) ->
  extends g (upd_hand p i f g).
Proof.
  intros Hf. apply extends_upd_player. intros x _. apply follows_alter_hand, Hf.
Qed.

Lemma extends_add_card p i c g : extends g (upd_hand p i (fun h => add_card h c) g).
Proof. apply extends_upd_hand. intros h H. exact H. Qed.

Lemma extends_fill_hand net p j : forall k g g',
  fill_hand net p j k g = Ok g' -> extends g g'.
Proof.
  induction k as [|k IH]; intros g g' H; cbn [fill_hand] in H.
  - injection H as <-. apply extends_refl.
  - destruct (_draw_card net g) as [[c g1]| |] eqn:Hd; cbn [bind] in H;
      try discriminate.
    eapply extends_trans; [exact (extends_draw _ _ _ _ Hd)|].
    eapply extends_trans; [apply (extends_add_card p j c)|].
    apply IH, H.
Qed.

Lemma extends_fill_hands net p : forall n j g g',
  fill_hands net p n j g = Ok g' -> extends g g'.
Proof.
  induction n as [|n IH]; intros j g g' H; cbn [fill_hands] in H.
  - injection H as <-. apply extends_refl.
  - destruct (fill_hand net p j _ g) as [g1| |] eqn:Hf; cbn [bind] in H;
      try discriminate.
    eapply extends_trans; [exact (extends_fill_hand _ _ _ _ _ _ Hf)|].
    eapply IH, H.
Qed.



Lemma integral_sub q c : integral q -> integral (q - inject_Z c)%Q.
Proof.
  intros [z Hz]. exists (z - c). rewrite Hz. unfold Qminus, Z.sub.
  rewrite inject_Z_plus, inject_Z_opp. reflexivity.
Qed.



Lemma Exists_alter_here {A} (P : A -> Prop) (f : A -> A) (l : list A) (i : nat) :
  (i < length l)%nat -> (forall x, P (f x)) -> Exists P (alter f i l).
Proof.
  intros Hi Hf. revert i Hi. induction l as [|y l IH]; intros i Hi;
    [simpl in Hi; lia|].
  destruct i as [|i]; simpl.
  - left. apply Hf.
  - right. apply IH. simpl in Hi. lia.
Qed.

(** The double-down of hand [i]: the fee is recorded on the hand. *)
Lemma follows_double_down i c cost x :
  (i < length (hands x))%nat ->
  follows x (set_hands (alter (fun h => double_down h c) i
                          (hands (tell (CardDrawn c) (set_coins (coins x - inject_Z cost)%Q x))))
               (tell (CardDrawn c) (set_coins (coins x - inject_Z cost)%Q x))).
Proof.
  intros Hi. unfold follows, fee_paid. cbn [hands coins set_hands set_coins tell].
  assert (Hdd : Exists (fun h => is_double_down h = true)
                  (alter (fun h => double_down h c) i (hands x)))
    by (apply Exists_alter_here; [exact Hi | reflexivity]).
  split; [rewrite length_alter; lia|].
  split; [intros _; right; exact Hdd|].
  split; [left; right; exact Hdd|]. apply integral_sub.
Qed.

(** The split of hand [i]: the fee is recorded by the new hand. *)
Lemma follows_split i cost x x2 :
  (i < length (hands x))%nat ->
  split_hand i x = Ok x2 ->
  follows x (set_coins (coins x2 - inject_Z cost)%Q x2).
Proof.
  intros Hi. unfold split_hand.
  destruct (lookup_lt_is_Some_2 _ _ Hi) as [h Hh]. rewrite Hh.
  destruct (split h) as [[h' hnew]| |]; cbn [bind]; try discriminate.
  intros [= <-]. unfold follows, fee_paid.
  cbn [hands coins set_hands set_coins].
  rewrite length_app, length_insert. simpl.
  split; [lia|]. split; [intros _; left; lia|].
  split; [left; left; lia|]. apply integral_sub.
Qed.

Lemma draw_card_players net g c g' :
  _draw_card net g = Ok (c, g') ->
  players g' = tell (CardDrawn c) <$> players g.
Proof.
  unfold _draw_card.
  destruct (Deck.draw_card net false (deck g)) as [[[c'|] d]| |]; simpl;
    try discriminate.
  intros [= <- <-]. reflexivity.
Qed.




Lemma asked_trace house_copy p i h0 m g :
  trace (asked house_copy p i h0 m g)
  = trace g ++ [ShowTable house_copy (Some (p, i)); PlayMove p i 0 h0 m].
Proof. unfold asked. cbn [trace emit upd_player set_players]. rewrite <- app_assoc. reflexivity. Qed.

Section TurnInvariant.

Variable net : Network.
Variable house_copy : Hand.

(** One pass of the loop: the table is shown with the hand being played,
    the strategy is asked about [player.hands[0]], and the answer is
    applied. *)
Lemma hand_iteration_extends p i g b g' :
  (i < length (player_hands g p))%nat ->
  hand_iteration net house_copy p i g = Ok (b, g') ->
  exists pl h0 m,
    players g !! p = Some pl /\ hands pl !! 0%nat = Some h0
    /\ m = play_move (strategy pl) (told pl) h0
    /\ extends (asked house_copy p i h0 m g) g'.
Proof.
  intros Hi. unfold hand_iteration.
  change (players (emit (ShowTable house_copy (Some (p, i))) g)) with (players g).
  destruct (players g !! p) as [pl|] eqn:Hp; [|discriminate].
  destruct (hands pl !! 0%nat) as [h0|] eqn:H0; [|discriminate].
  set (m := play_move (strategy pl) (told pl) h0).
  fold (asked house_copy p i h0 m g).
  set (g0 := asked house_copy p i h0 m g).
  pose proof (asked_player house_copy p i h0 m g pl Hp) as Hp0. fold g0 in Hp0.
  assert (Hi0 : (i < length (hands (tell (MoveAsked h0) pl)))%nat).
  { unfold player_hands in Hi. rewrite Hp in Hi. exact Hi. }
  intros H. exists pl, h0, m.
  split; [reflexivity|]. split; [exact H0|]. split; [reflexivity|].
  fold g0. destruct m eqn:Hm.
  - (* HIT *)
    destruct (_draw_card net g0) as [[c g1]| |] eqn:Hd; cbn [bind] in H;
      try discriminate.
    injection H as _ <-.
    eapply extends_trans; [exact (extends_draw _ _ _ _ Hd)|].
    apply extends_add_card.
  - (* SPLIT *)
    destruct (can_split (hand_at g0 p i)).
    + rewrite Hp0 in H.
      destruct (split_hand i (tell (MoveAsked h0) pl)) as [pl2| |] eqn:Hs;
        cbn [bind] in H; try discriminate.
      match type of H with
      | (let* _ := (let* _ := fill_hands net p ?n 0%nat ?g2 in _) in _) = _ =>
          destruct (fill_hands net p n 0%nat g2) as [g3| |] eqn:Hf;
            cbn [bind] in H; try discriminate;
            assert (H2 : extends g0 g2)
      end.
      { split; [reflexivity|]. split; [|reflexivity].
        cbn [players upd_player set_players].
        rewrite (alter_as_insert _ _ _ pl2)
          by (apply list_lookup_insert_eq, (lookup_lt_Some _ _ _ Hp0)).
        rewrite list_insert_insert_eq.
        rewrite <- (list_insert_id _ _ _ Hp0) at 1.
        apply Forall2_insert; [apply Forall2_follows_refl|].
        apply (follows_split i); [exact Hi0 | exact Hs]. }
      injection H as _ <-.
      eapply extends_trans; [exact H2|].
      exact (extends_fill_hands _ _ _ _ _ _ Hf).
    + cbn [bind] in H. injection H as _ <-. apply extends_refl.
  - (* DOUBLE_DOWN *)
    match type of H with
    | (let* _ := (let* _ := _draw_card net ?g1 in _) in _) = _ =>
        destruct (_draw_card net g1) as [[c g2]| |] eqn:Hd; cbn [bind] in H;
          try discriminate
    end.
    injection H as _ <-.
    pose proof (draw_card_players _ _ _ _ Hd) as Hps.
    destruct (draw_card_deck _ _ _ _ Hd) as (_ & B & T & _).
    split; [cbn; rewrite B; reflexivity|].
    split; [|cbn; rewrite T; reflexivity].
    unfold upd_hand, upd_player. cbn [players set_players]. rewrite Hps.
    cbn [players upd_player set_players].
    apply Forall2_same_length_lookup_2.
    + rewrite length_alter, length_fmap, length_alter. reflexivity.
    + intros j x y Hx Hy. destruct (decide (p = j)) as [<-|Hne].
      * rewrite list_lookup_alter_eq, list_lookup_fmap, list_lookup_alter_eq, Hx
          in Hy.
        cbn in Hy. injection Hy as <-.
        rewrite Hp0 in Hx. injection Hx as <-.
        apply (follows_double_down i c); exact Hi0.
      * rewrite list_lookup_alter_ne, list_lookup_fmap, list_lookup_alter_ne, Hx
          in Hy by exact Hne.
        cbn in Hy. injection Hy as <-. apply follows_tell.
  - cbn [bind] in H. injection H as _ <-. apply extends_refl.
  - cbn [bind] in H. injection H as _ <-.
    apply extends_upd_hand. intros h Hh. exact Hh.
  - cbn [bind] in H. injection H as _ <-. apply extends_refl.
Qed.

End TurnInvariant.

Section RoundInvariant.

Variable net : Network.
Variable house_copy : Hand.




End RoundInvariant.



(** ** Settlement never takes chips *)






(** ** The round *)






(** * Which hand the policy is asked about *)

(** Every pass of the loop for hand [i] shows the table with hand [i] and
    asks the policy about [player.hands[0]]. *)
Lemma decision_passes_first_hand net house_copy p i g b g' :
  (i < length (player_hands g p))%nat ->
  hand_iteration net house_copy p i g = Ok (b, g') ->
  exists pl h0 m k,
    players g !! p = Some pl /\ hands pl !! 0%nat = Some h0
    /\ trace g' = trace g ++ [ShowTable house_copy (Some (p, i));
                             PlayMove p i 0 h0 m] ++ k.
Proof.
  intros Hi H.
  destruct (hand_iteration_extends _ _ _ _ _ _ _ Hi H)
    as (pl & h0 & m & Hp & H0 & _ & (_ & _ & [k Hk])).
  exists pl, h0, m, k. rewrite asked_trace in Hk.
  rewrite Hk, <- app_assoc. repeat split; assumption.
Qed.

(** C8.  In the round of [split_table] the player ends with the hands
    {7, 10} and {7, 5}.  While the second hand, {7, 5}, is played — the
    table is shown with it — the policy is asked about the first hand,
    {7, 10}. *)
Theorem policy_asked_about_first_hand :
  exists g' shown arg,
    play_round no_network (fun l => l) 5 split_table = Ok (true, g')
    /\ map (fun h => map value (cards h)) (player_hands g' 0)
       = [[R7; R10]; [R7; R5]]
    /\ ShowTable shown (Some (0%nat, 1%nat)) ∈ trace g'
    /\ PlayMove 0 1 0 arg STAND ∈ trace g'
    /\ map value (cards arg) = [R7; R10]
    /\ Some arg = player_hands g' 0 !! 0%nat
    /\ Some arg <> player_hands g' 0 !! 1%nat.
Proof.
  eexists. exists (hand_of [R9]), (hand_of [R7; R10]).
  split; [vm_compute; reflexivity|].
  split; [reflexivity|].
  split; [apply list_elem_of_In; vm_compute; tauto|].
  split; [apply list_elem_of_In; vm_compute; tauto|].
  split; [reflexivity|]. split; [reflexivity | discriminate].
Qed.

(** * Split requests *)

Lemma can_split_iff h : can_split h = true <-> splittable h.
Proof.
  unfold can_split, splittable. split.
  - destruct (cards h) as [|c0 [|c1 [|? ?]]]; try discriminate.
    intros H. apply bool_decide_eq_true_1 in H. eauto.
  - intros (c0 & c1 & -> & H). apply bool_decide_eq_true_2, H.
Qed.



(** * Further properties of hands *)

Lemma cards_le_hard_total cs :
  Z.of_nat (length cs) <= foldr Z.add 0 (map (fun c => rank_value (value c)) cs).
Proof.
  induction cs as [|c cs IH]; simpl; [lia|].
  pose proof (rank_value_pos (value c)). lia.
Qed.

Lemma hard_total_values_perm cs cs' :
  cs ≡ₚ cs' ->
  foldr Z.add 0 (map (fun c => rank_value (value c)) cs)
  = foldr Z.add 0 (map (fun c => rank_value (value c)) cs').
Proof. induction 1; simpl; lia. Qed.

Lemma has_ace_perm cs cs' :
  cs ≡ₚ cs' -> existsb is_ace cs = existsb is_ace cs'.
Proof.
  induction 1; simpl; try congruence.
  destruct (is_ace x), (is_ace y); reflexivity.
Qed.

Lemma score_ge_cards h : Z.of_nat (length (cards h)) <= score h.
Proof.
  pose proof (cards_le_hard_total (cards h)) as Hlen. fold (hard_total h) in Hlen.
  rewrite score_closed_form.
  destruct (existsb is_ace (cards h) && (hard_total h + 10 <=? 21)); lia.
Qed.

(** X1.  The score lies between the hard total (every ace 1) and the hard
    total plus 10; it is the hard total plus 10 exactly when the hand holds
    an ace and the hard total is at most 11, so at most one ace counts 11;
    a score above 21 is always the hard total (the promotion never busts a
    hand); and every card counts at least 1. *)
Theorem score_bounds (h : Hand) :
  hard_total h <= score h <= hard_total h + 10
  /\ (score h = hard_total h + 10
      <-> existsb is_ace (cards h) = true /\ hard_total h <= 11)
  /\ (21 < score h -> score h = hard_total h)
  /\ Z.of_nat (length (cards h)) <= score h.
Proof.
  pose proof (cards_le_hard_total (cards h)) as Hlen. fold (hard_total h) in Hlen.
  rewrite score_closed_form.
  destruct (existsb is_ace (cards h)); simpl;
    [destruct (hard_total h + 10 <=? 21) eqn:E;
       [apply Z.leb_le in E | apply Z.leb_gt in E]|];
    repeat split; try lia; try tauto; intros; try lia; try (intuition (try lia; discriminate)).
Qed.

Lemma score_bounds_witness :
  let h := hand_of [KING; QUEEN; R5] in
  21 < score h /\ score h = hard_total h.
Proof.
  intros h. destruct (score_bounds h) as (_ & _ & H & _).
  assert (Hb : 21 < score h) by (vm_compute; reflexivity).
  split; [exact Hb | exact (H Hb)].
Defined.

(** X2.  The order of the cards in a hand does not matter: two hands with
    the same cards in any order have the same score and agree on
    [is_soft_hand], [is_blackjack] and [can_split]. *)
Theorem hand_queries_ignore_order (h h' : Hand) :
  cards h ≡ₚ cards h' ->
  score h = score h'
  /\ is_soft_hand h = is_soft_hand h'
  /\ is_blackjack h = is_blackjack h'
  /\ can_split h = can_split h'.
Proof.
  intros Hp.
  assert (Hs : score h = score h').
  { rewrite !score_closed_form. unfold hard_total.
    rewrite (hard_total_values_perm _ _ Hp), (has_ace_perm _ _ Hp). reflexivity. }
  split; [exact Hs|]. split; [|split].
  - rewrite !is_soft_hand_has_ace. apply has_ace_perm, Hp.
  - unfold is_blackjack. rewrite Hs, (Permutation_length Hp). reflexivity.
  - unfold can_split. pose proof (Permutation_length Hp) as Hl.
    destruct (cards h) as [|a [|b [|c l]]] eqn:E;
      destruct (cards h') as [|a' [|b' [|c' l']]] eqn:E'; simpl in Hl;
      try lia; try reflexivity.
    apply Permutation_length_2_inv in Hp as [[= <- <-] | [= <- <-]];
      [reflexivity|].
    apply bool_decide_ext. split; congruence.
Qed.

Lemma hand_queries_ignore_order_witness :
  score (hand_of [ACE; R5; KING]) = score (hand_of [KING; ACE; R5])
  /\ is_soft_hand (hand_of [ACE; R5; KING]) = is_soft_hand (hand_of [KING; ACE; R5])
  /\ is_blackjack (hand_of [ACE; R5; KING]) = is_blackjack (hand_of [KING; ACE; R5])
  /\ can_split (hand_of [ACE; R5; KING]) = can_split (hand_of [KING; ACE; R5]).
Proof.
  apply (hand_queries_ignore_order (hand_of [ACE; R5; KING]) (hand_of [KING; ACE; R5])).
  simpl. etransitivity; [apply perm_skip, perm_swap | apply perm_swap].
Defined.

(** X3.  A hand of at most two cards is never bust, and a hand of 22 cards
    or more always is: a turn made of hits alone ends after at most 20
    cards drawn on top of the two dealt. *)
Theorem bust_by_size (h : Hand) :
  ((length (cards h) <= 2)%nat -> score h <= 21)
  /\ ((22 <= length (cards h))%nat -> 21 < score h).
Proof.
  split.
  - intros Hl. destruct (cards h) as [|a [|b [|c l]]] eqn:E.
    + unfold score. rewrite E. simpl. lia.
    + unfold score. rewrite E. destruct a as [va ? ? ?]; destruct va; simpl; lia.
    + apply score_two_cards_le_21. rewrite E. reflexivity.
    + simpl in Hl. lia.
  - intros Hl. pose proof (score_ge_cards h). lia.
Qed.

Lemma bust_by_size_witness :
  score (hand_of [ACE; KING]) <= 21
  /\ 21 < score (hand_of (replicate 22 ACE)).
Proof.
  split.
  - apply (proj1 (bust_by_size (hand_of [ACE; KING]))). simpl. lia.
  - apply (proj2 (bust_by_size (hand_of (replicate 22 ACE)))). simpl. lia.
Defined.

(** X4.  A blackjack always holds an ace, so it is reported soft, and it can
    never be split: two cards of equal rank score 12 (two aces) or an even
    number up to 20. *)
Theorem blackjack_is_soft_and_unsplittable (h : Hand) :
  is_blackjack h = true ->
  score h = 21 /\ is_soft_hand h = true /\ can_split h = false.
Proof.
  unfold is_blackjack. intros H. apply andb_true_iff in H as [Hl Hs].
  apply Nat.eqb_eq in Hl. apply Z.eqb_eq in Hs.
  split; [exact Hs|]. rewrite is_soft_hand_has_ace. unfold can_split.
  revert Hs. unfold score.
  destruct (cards h) as [|a [|b [|c l]]]; try discriminate.
  destruct a as [va ? ? ?], b as [vb ? ? ?].
  destruct va, vb; simpl; intros Hs; try discriminate Hs; split; reflexivity.
Qed.

Lemma blackjack_is_soft_and_unsplittable_witness :
  score (hand_of [KING; ACE]) = 21
  /\ is_soft_hand (hand_of [KING; ACE]) = true
  /\ can_split (hand_of [KING; ACE]) = false.
Proof.
  apply (blackjack_is_soft_and_unsplittable (hand_of [KING; ACE])). reflexivity.
Defined.

(** X5.  [Hand.split] raises [ValueError] exactly on a hand that cannot be
    split, and raises nothing else; when it succeeds, the hand keeps its
    first card and its flags, the new hand holds the second card with both
    flags clear, and the two hands together hold the cards of the original
    in order. *)
Theorem split_conserves_cards (h : Hand) :
  (can_split h = false -> split h = Raise ValueError)
  /\ (can_split h = true ->
      exists a b, split h = Ok (a, b)
        /\ cards a ++ cards b = cards h
        /\ length (cards a) = 1%nat /\ length (cards b) = 1%nat
        /\ is_double_down a = is_double_down h
        /\ is_surrendered a = is_surrendered h
        /\ is_double_down b = false /\ is_surrendered b = false)
  /\ (forall e, split h = Raise e -> e = ValueError /\ can_split h = false)
  /\ split h <> OutOfFuel.
Proof.
  assert (Hok : can_split h = true ->
      exists a b, split h = Ok (a, b)
        /\ cards a ++ cards b = cards h
        /\ length (cards a) = 1%nat /\ length (cards b) = 1%nat
        /\ is_double_down a = is_double_down h
        /\ is_surrendered a = is_surrendered h
        /\ is_double_down b = false /\ is_surrendered b = false).
  { intros Hc. pose proof Hc as Hc'. apply can_split_iff in Hc' as (c0 & c1 & E & _).
    unfold split. rewrite Hc, E. simpl.
    eexists _, _. repeat split; reflexivity. }
  split; [|split; [exact Hok|split]].
  - intros Hc. unfold split. rewrite Hc. reflexivity.
  - intros e He. destruct (can_split h) eqn:Hc.
    + destruct (Hok eq_refl) as (a & b & Hs & _). congruence.
    + unfold split in He. rewrite Hc in He. simpl in He. split; congruence.
  - destruct (can_split h) eqn:Hc.
    + destruct (Hok eq_refl) as (a & b & Hs & _). congruence.
    + unfold split. rewrite Hc. discriminate.
Qed.

Lemma split_conserves_cards_witness :
  split (hand_of [R7; R8]) = Raise ValueError
  /\ exists a b, split (hand_of [R7; R7]) = Ok (a, b)
       /\ cards a ++ cards b = cards (hand_of [R7; R7]).
Proof.
  split.
  - apply (proj1 (split_conserves_cards (hand_of [R7; R8]))). reflexivity.
  - destruct (proj1 (proj2 (split_conserves_cards (hand_of [R7; R7]))) eq_refl)
      as (a & b & Hs & Hc & _).
    exists a, b. split; assumption.
Defined.

(** * Further properties of the card supplies *)

(** How many cards of the pile are the card [v] of [s]. *)
Lemma pile_holds_each_once (v : Rank) (s : Suit) :
  length (filter (fun c => value c = v /\ suit c = s) _generate_backup_pile)
  = 1%nat.
Proof. destruct v, s; vm_compute; reflexivity. Qed.

(** X6.  One pack is 52 cards, all face up: every rank of every suit
    exactly once, under the code the source computes for it, and no two
    cards share a code (a ten is spelled with its last digit, 0). *)
Theorem backup_pile_is_a_full_pack :
  length _generate_backup_pile = 52%nat
  /\ (forall v s, card v s ∈ _generate_backup_pile)
  /\ (forall v s,
        length (filter (fun c => value c = v /\ suit c = s) _generate_backup_pile)
        = 1%nat)
  /\ NoDup (Card_repr <$> _generate_backup_pile)
  /\ Forall (fun c => top_down c = false /\ Card_str c = code c
                      /\ String.length (code c) = 2%nat)
       _generate_backup_pile
  /\ card_code R10 HEARTS = "0H".
Proof.
  split; [reflexivity|]. split; [|split; [exact pile_holds_each_once|split; [|split]]].
  - intros v s. apply (bool_decide_unpack _). destruct v, s; vm_compute; reflexivity.
  - apply (bool_decide_unpack _). vm_compute. reflexivity.
  - apply (bool_decide_unpack _). vm_compute. reflexivity.
  - reflexivity.
Qed.

Lemma filter_length_app {A} (P : A -> Prop) `{!forall x, Decision (P x)} (l k : list A) :
  length (filter P (l ++ k)) = (length (filter P l) + length (filter P k))%nat.
Proof. rewrite filter_app, length_app. reflexivity. Qed.

Lemma piles_hold_each (n : nat) (v : Rank) (s : Suit) :
  length (filter (fun c => value c = v /\ suit c = s)
            (concat (replicate n _generate_backup_pile))) = n.
Proof.
  induction n as [|n IH]; [reflexivity|].
  cbn [replicate concat]. rewrite filter_length_app, IH, pile_holds_each_once.
  reflexivity.
Qed.

(** X7.  A deck of blackjack.py built from [n] packs holds no session, holds
    [52 * n] cards, reports that number as [remaining], and holds every card
    exactly [n] times, shuffled or not. *)
Theorem deck_init_holds_n_packs
    (random_shuffle : list Card -> list Card) (n : nat) (shuffle : bool) :
  (forall l, random_shuffle l ≡ₚ l) ->
  let d := Deck.init random_shuffle n shuffle in
  Deck.id d = None
  /\ length (Deck._backup_deck d) = (52 * n)%nat
  /\ Deck.remaining d = Z.of_nat (length (Deck._backup_deck d))
  /\ forall v s,
       length (filter (fun c => value c = v /\ suit c = s) (Deck._backup_deck d))
       = n.
Proof.
  intros Hperm d.
  assert (Hp : Deck._backup_deck d ≡ₚ concat (replicate n _generate_backup_pile)).
  { unfold d, Deck.init. cbn [Deck._backup_deck].
    destruct shuffle; [apply Hperm | reflexivity]. }
  split; [reflexivity|]. split; [|split].
  - rewrite Hp. apply piles_length.
  - unfold d, Deck.init. cbn [Deck.remaining Deck._backup_deck].
    destruct shuffle; [rewrite Hperm|]; reflexivity.
  - intros v s. rewrite Hp. apply piles_hold_each.
Qed.

Lemma deck_init_holds_n_packs_witness :
  let d := Deck.init (fun l => reverse l) 2 true in
  Deck.id d = None
  /\ length (Deck._backup_deck d) = (52 * 2)%nat
  /\ Deck.remaining d = Z.of_nat (length (Deck._backup_deck d))
  /\ forall v s,
       length (filter (fun c => value c = v /\ suit c = s) (Deck._backup_deck d))
       = 2%nat.
Proof.
  apply (deck_init_holds_n_packs (fun l => reverse l) 2 true).
  intros l. apply reverse_Permutation.
Defined.

(** ** Draws remove exactly the card they return *)

Lemma list_remove_Some eqb l x r :
  list_remove eqb l = Some (x, r) -> eqb x = true /\ l ≡ₚ x :: r.
Proof.
  revert x r. induction l as [|y l IH]; intros x r; simpl; [discriminate|].
  destruct (eqb y) eqn:Ey.
  - intros [= <- <-]. split; [exact Ey | reflexivity].
  - destruct (list_remove eqb l) as [[z r']|]; [|discriminate].
    intros [= <- <-]. destruct (IH z r' eq_refl) as [Hz Hp].
    split; [exact Hz|]. rewrite Hp. apply perm_swap.
Qed.

Lemma list_remove_None eqb l :
  list_remove eqb l = None -> Forall (fun x => eqb x = false) l.
Proof.
  induction l as [|y l IH]; simpl; [constructor|].
  destruct (eqb y) eqn:Ey; [discriminate|].
  destruct (list_remove eqb l) as [[z r']|]; [discriminate|].
  intros _. constructor; [exact Ey | apply IH; reflexivity].
Qed.

Lemma pop_Some_snoc {A} (l r : list A) (x : A) :
  pop l = Some (x, r) -> l = r ++ [x].
Proof.
  destruct l as [|y l'] using rev_ind; [discriminate|].
  rewrite pop_snoc. intros [= -> ->]. reflexivity.
Qed.

Lemma pop_None_nil {A} (l : list A) : pop l = None -> l = [].
Proof.
  destruct l as [|y l'] using rev_ind; [reflexivity|].
  rewrite pop_snoc. discriminate.
Qed.

Lemma pop_local_Some td d c d' :
  Deck.pop_local td d = Ok (c, d') ->
  exists x, c = Some (set_top_down x td)
    /\ Deck._backup_deck d = Deck._backup_deck d' ++ [x]
    /\ Deck.remaining d' = Z.of_nat (length (Deck._backup_deck d'))
    /\ Deck.id d' = Deck.id d /\ Deck.deck_count d' = Deck.deck_count d.
Proof.
  unfold Deck.pop_local.
  destruct (pop (Deck._backup_deck d)) as [[x r]|] eqn:Hp; [|discriminate].
  intros [= <- <-]. exists x. cbn. repeat split. apply pop_Some_snoc, Hp.
Qed.

(** X8.  Whatever the service answers, a draw of blackjack.py that returns
    a card has removed exactly that card, once, from the local pile (the
    card returned is the pile's card with [top_down] set as asked), and a
    draw that returns [None] leaves the pile as it was; the number of packs
    is never changed. *)
Theorem draw_removes_the_card_returned
    (net : Network) (td : bool) (d d' : Deck.t) (oc : option Card) :
  Deck.draw_card net td d = Ok (oc, d') ->
  Deck.deck_count d' = Deck.deck_count d
  /\ match oc with
     | Some c =>
         exists x, c = set_top_down x td
           /\ Deck._backup_deck d ≡ₚ x :: Deck._backup_deck d'
           /\ length (Deck._backup_deck d) = S (length (Deck._backup_deck d'))
     | None => Deck._backup_deck d' = Deck._backup_deck d
     end.
Proof.
  assert (Hlocal : forall d0, Deck.pop_local td d0 = Ok (oc, d') ->
            Deck.deck_count d' = Deck.deck_count d0
            /\ match oc with
               | Some c =>
                   exists x, c = set_top_down x td
                     /\ Deck._backup_deck d0 ≡ₚ x :: Deck._backup_deck d'
                     /\ length (Deck._backup_deck d0) = S (length (Deck._backup_deck d'))
               | None => Deck._backup_deck d' = Deck._backup_deck d0
               end).
  { intros d0 H. destruct (pop_local_Some _ _ _ _ H) as (x & -> & Hp & _ & _ & Hc).
    split; [exact Hc|]. exists x. split; [reflexivity|]. rewrite Hp. split.
    - symmetry. apply Permutation_cons_append.
    - rewrite length_app. simpl. lia. }
  unfold Deck.draw_card. destruct (Deck.truthy (Deck.id d)); [|apply Hlocal].
  destruct (Deck._request net _ d) as [[resp d1]| |] eqn:Hreq; cbn [bind];
    try discriminate.
  pose proof (request_pile _ _ _ _ _ Hreq) as Hpile.
  assert (Hcount : Deck.deck_count d1 = Deck.deck_count d).
  { revert Hreq. unfold Deck._request, Deck.request_body.
    destruct (net _) as [| |b]; simpl; try discriminate.
    destruct (b_deck_id b); [destruct (b_remaining b)|]; simpl;
      intros [= <- <-]; reflexivity. }
  destruct resp as [b|]; [|discriminate].
  destruct (b_cards b) as [[|rc rest]|]; try discriminate.
  - intros [= <- <-]. split; assumption.
  - destruct (r_value rc) as [v|], (r_suit rc) as [s|], (r_code rc) as [c|];
      try discriminate.
    destruct (list_remove (Card_eq_raw v s c) (Deck._backup_deck d1))
      as [[x r]|] eqn:Hrm.
    + intros [= <- <-]. cbn. split; [exact Hcount|].
      destruct (list_remove_Some _ _ _ _ Hrm) as [_ Hp].
      exists x. split; [reflexivity|]. rewrite <- Hpile. split; [exact Hp|].
      rewrite Hp. reflexivity.
    + intros H. destruct (Hlocal d1 H) as [Hc Hm].
      rewrite <- Hcount, <- Hpile. split; assumption.
Qed.

Lemma draw_removes_the_card_returned_witness :
  let d := local_deck [card R2 SPADES; card ACE HEARTS] in
  exists d',
    Deck.draw_card no_network true d
    = Ok (Some (set_top_down (card ACE HEARTS) true), d')
    /\ Deck.deck_count d' = Deck.deck_count d
    /\ exists x, set_top_down (card ACE HEARTS) true = set_top_down x true
         /\ Deck._backup_deck d ≡ₚ x :: Deck._backup_deck d'
         /\ length (Deck._backup_deck d) = S (length (Deck._backup_deck d')).
Proof.
  intros d. eexists. split; [vm_compute; reflexivity|].
  exact (draw_removes_the_card_returned no_network true d _ _ eq_refl).
Defined.

(** X9.  The draw of deck.py, whatever the service answers: a card returned
    was removed exactly once from the local pile and [remaining] is then the
    size of the pile; [None] is returned only when the local pile is empty,
    and then nothing changes. *)
Theorem deckpy_draw_removes_the_card_returned
    (net : Network) (td : bool) (d d' : DeckPy.t) (oc : option Card) :
  DeckPy.draw_card net td d = Ok (oc, d') ->
  match oc with
  | Some c =>
      exists x, c = set_top_down x td
        /\ DeckPy._backup_deck d ≡ₚ x :: DeckPy._backup_deck d'
        /\ DeckPy.remaining d' = Z.of_nat (length (DeckPy._backup_deck d'))
        /\ DeckPy.id d' = DeckPy.id d
  | None => d' = d /\ DeckPy._backup_deck d = []
  end.
Proof.
  unfold DeckPy.draw_card.
  match goal with
  | |- bind ?e _ = _ -> _ => destruct e as [c| |]; cbn [bind]; try discriminate
  end.
  assert (Hpop : forall pile0,
    pile0 = DeckPy._backup_deck d ->
    match pop pile0 with
    | Some (card, rest) =>
        Ok (Some (set_top_down card td),
            DeckPy.mk rest (Z.of_nat (length rest)) (DeckPy.id d)
              (DeckPy.deck_count d) (DeckPy.is_shuffled d))
    | None => Ok (None, d)
    end = Ok (oc, d') ->
    match oc with
    | Some c =>
        exists x, c = set_top_down x td
          /\ DeckPy._backup_deck d ≡ₚ x :: DeckPy._backup_deck d'
          /\ DeckPy.remaining d' = Z.of_nat (length (DeckPy._backup_deck d'))
          /\ DeckPy.id d' = DeckPy.id d
    | None => d' = d /\ DeckPy._backup_deck d = []
    end).
  { intros pile0 ->. destruct (pop (DeckPy._backup_deck d)) as [[x r]|] eqn:Hp.
    - intros [= <- <-]. exists x. cbn. repeat split.
      rewrite (pop_Some_snoc _ _ _ Hp). symmetry. apply Permutation_cons_append.
    - intros [= <- <-]. split; [reflexivity | apply pop_None_nil, Hp]. }
  destruct c as [[[v s] c]|].
  - destruct (list_remove (Card_eq_raw v s c) (DeckPy._backup_deck d))
      as [[x r]|] eqn:Hrm.
    + intros [= <- <-]. exists x. cbn. repeat split.
      apply (list_remove_Some _ _ _ _ Hrm).
    + apply Hpop. reflexivity.
  - apply Hpop. reflexivity.
Qed.

Lemma deckpy_draw_removes_the_card_returned_witness :
  exists d',
    DeckPy.draw_card no_network false
      (DeckPy.mk [card R2 SPADES; card ACE HEARTS] (-1) None 1 false)
    = Ok (Some (card ACE HEARTS), d')
    /\ DeckPy.remaining d' = 1.
Proof.
  eexists. split; [vm_compute; reflexivity|].
  destruct (deckpy_draw_removes_the_card_returned no_network false
              (DeckPy.mk [card R2 SPADES; card ACE HEARTS] (-1) None 1 false)
              _ _ eq_refl) as (x & _ & _ & Hr & _).
  exact Hr.
Defined.

(** ** What a draw can raise *)






(** ** The order of the cards drawn *)

Lemma draw_cards_stack
    (net : Network) (rest top : list Card) (n : nat) (sh : bool) (rem : Z) :
  exists d',
    Deck.draw_cards net (length top) (Deck.mk n sh None (rest ++ top) rem)
    = Ok ((fun c => Some (set_top_down c false)) <$> reverse top, d')
    /\ Deck._backup_deck d' = rest
    /\ Deck.id d' = None
    /\ (top <> [] -> Deck.remaining d' = Z.of_nat (length rest)).
Proof.
  revert rem. induction top as [|x top IH] using rev_ind; intros rem.
  - eexists. rewrite app_nil_r. simpl. repeat split. congruence.
  - rewrite length_app, Nat.add_comm. cbn [length Nat.add Deck.draw_cards].
    rewrite draw_card_local by reflexivity.
    unfold Deck.pop_local. cbn [Deck._backup_deck].
    rewrite app_assoc, pop_snoc. cbn [bind].
    destruct (IH (Z.of_nat (length (rest ++ top))))
      as (d' & Hd & Hp & Hid & Hrem).
    cbn [Deck.deck_count Deck.is_shuffled Deck.id].
    rewrite Hd. cbn [bind]. exists d'. split; [|split; [exact Hp|split; [exact Hid|]]].
    + rewrite reverse_snoc. reflexivity.
    + intros _. destruct top as [|y top'].
      * simpl in Hd. injection Hd as <-. cbn. rewrite app_nil_r. reflexivity.
      * apply Hrem. discriminate.
Qed.

(** X11.  Without a session the pile is a stack: drawing as many cards as a
    suffix of the pile holds returns that suffix from its last card to its
    first, each face up, leaves the rest of the pile, and keeps [remaining]
    equal to the size of the pile. *)
Theorem draws_come_from_the_end
    (net : Network) (rest top : list Card) (n : nat) (sh : bool) (rem : Z) :
  exists d',
    Deck.draw_cards net (length top) (Deck.mk n sh None (rest ++ top) rem)
    = Ok ((fun c => Some (set_top_down c false)) <$> reverse top, d')
    /\ Deck._backup_deck d' = rest
    /\ Deck.id d' = None
    /\ (top <> [] -> Deck.remaining d' = Z.of_nat (length rest)).
Proof. apply draw_cards_stack. Qed.

Lemma draws_come_from_the_end_witness :
  exists d',
    Deck.draw_cards no_network 2
      (Deck.mk 1 false None [card R7 SPADES; card KING HEARTS; card ACE CLUBS] 3)
    = Ok ([Some (card ACE CLUBS); Some (card KING HEARTS)], d')
    /\ Deck._backup_deck d' = [card R7 SPADES]
    /\ Deck.remaining d' = 1.
Proof.
  destruct (draws_come_from_the_end no_network [card R7 SPADES]
              [card KING HEARTS; card ACE CLUBS] 1 false 3)
    as (d' & Hd & Hp & _ & Hr).
  exists d'. split; [exact Hd|]. split; [exact Hp|]. apply Hr. discriminate.
Defined.

(** ** Shuffling *)



(** ** A dropped session *)

Lemma request_incomplete net url d b :
  net url = Json b -> b_deck_id b = None \/ b_remaining b = None ->
  exists d1, Deck._request net url d = Ok (Some b, d1) /\ Deck.id d1 = None.
Proof.
  intros Hn Hmiss. unfold Deck._request, Deck.request_body. rewrite Hn.
  destruct (b_deck_id b) as [i|]; [destruct (b_remaining b) as [r|]|]; simpl.
  - destruct Hmiss; discriminate.
  - eexists. split; reflexivity.
  - eexists. split; reflexivity.
Qed.

(** X13.  An answer without [deck_id] or without [remaining] ends the
    session of blackjack.py: whatever the draw then returns, the deck holds
    no session afterwards, and every later draw is local: it pops the pile
    without asking the service. *)
Theorem incomplete_answer_ends_the_session
    (net : Network) (td : bool) (d d' : Deck.t) (b : Body) (oc : option Card) :
  Deck.truthy (Deck.id d) = true ->
  net (DECK_BASE_API +:+ Deck.id_str (Deck.id d) +:+ "/draw/?count=1") = Json b ->
  b_deck_id b = None \/ b_remaining b = None ->
  Deck.draw_card net td d = Ok (oc, d') ->
  Deck.id d' = None
  /\ forall net' td', Deck.draw_card net' td' d' = Deck.pop_local td' d'.
Proof.
  intros Ht Hn Hmiss H.
  assert (Hid : Deck.id d' = None).
  { destruct (request_incomplete net _ d b Hn Hmiss) as (d1 & Hreq & Hid1).
    revert H. unfold Deck.draw_card. rewrite Ht, Hreq. cbn [bind].
    destruct (b_cards b) as [[|rc rest]|]; try discriminate.
    - intros [= <- <-]. exact Hid1.
    - destruct (r_value rc), (r_suit rc), (r_code rc); try discriminate.
      destruct (list_remove _ _) as [[x r']|].
      + intros [= <- <-]. exact Hid1.
      + intros H. destruct (pop_local_Some _ _ _ _ H) as (x & _ & _ & _ & -> & _).
        exact Hid1. }
  split; [exact Hid|]. intros net' td'. apply draw_card_local, Hid.
Qed.

Lemma incomplete_answer_ends_the_session_witness :
  let d := Deck.mk 1 false (Some "abc") [card KING SPADES; card ACE SPADES] 2 in
  let b := mkBody None None (Some 1) (Some [raw (card KING SPADES)]) in
  exists d',
    Deck.draw_card (answering b) false d = Ok (Some (card KING SPADES), d')
    /\ Deck.id d' = None
    /\ forall net' td', Deck.draw_card net' td' d' = Deck.pop_local td' d'.
Proof.
  intros d b. eexists. split; [vm_compute; reflexivity|].
  apply (incomplete_answer_ends_the_session (answering b) false d _ b
           (Some (card KING SPADES))); [reflexivity | reflexivity | | reflexivity].
  left. reflexivity.
Defined.

(** * Further properties of the round *)

Lemma coins_lt_iff c cost : coins_lt c cost = true <-> (c < inject_Z cost)%Q.
Proof.
  unfold coins_lt, coins_ge. rewrite negb_true_iff.
  destruct (Qle_bool (inject_Z cost) c) eqn:E.
  - apply Qle_bool_iff in E. split; [discriminate|]. intros H.
    exfalso. exact (Qlt_not_le _ _ H E).
  - split; [|reflexivity]. intros _. apply Qnot_le_lt. intros H.
    apply Qle_bool_iff in H. congruence.
Qed.

Lemma coins_ge_iff c cost : coins_ge c cost = true <-> (inject_Z cost <= c)%Q.
Proof. unfold coins_ge. apply Qle_bool_iff. Qed.

Lemma forallb_Forall {A} (f : A -> bool) (l : list A) :
  forallb f l = true <-> Forall (fun x => f x = true) l.
Proof.
  induction l as [|x l IH]; simpl.
  - split; [constructor | reflexivity].
  - rewrite andb_true_iff, IH. split.
    + intros [H1 H2]. constructor; assumption.
    + intros H. inversion H; subst. split; assumption.
Qed.

(** The round does not return [False] once somebody can pay the ante. *)
Lemma play_round_not_over net random_shuffle fuel g g' :
  forallb (fun pl => coins_lt (coins pl) (BUY_IN_COST g))
    (random_shuffle (players g)) = false ->
  play_round net random_shuffle fuel g <> Ok (false, g').
Proof.
  intros Hall H. unfold play_round in H.
  cbn [players set_players BUY_IN_COST] in H. rewrite Hall in H.
  repeat match type of H with
         | bind ?e _ = _ =>
             let E := fresh "E" in
             destruct e as [?| |] eqn:E; cbn [bind] in H; try discriminate
         | (let '(_, _) := ?p in _) = _ => destruct p
         | match ?c with Some _ => _ | None => _ end = _ =>
             destruct c; try discriminate
         end.
Qed.

(** X14.  The round is over, [play_round] returning [False], exactly when
    every player is below the ante (an empty table included); nothing then
    happens but the shuffle of the players: no ante is taken, no card is
    drawn, nothing is shown.  Otherwise the round never returns [False]. *)
Theorem round_is_over_iff_all_broke
    (net : Network) (random_shuffle : list Player -> list Player)
    (fuel : nat) (g : GameController) :
  (forall l, random_shuffle l ≡ₚ l) ->
  (Forall (fun pl => (coins pl < inject_Z (BUY_IN_COST g))%Q) (players g)
   <-> play_round net random_shuffle fuel g
       = Ok (false, set_players (random_shuffle (players g)) g))
  /\ (forall g', play_round net random_shuffle fuel g = Ok (false, g') ->
        g' = set_players (random_shuffle (players g)) g).
Proof.
  intros Hperm.
  assert (Hiff : forallb (fun pl => coins_lt (coins pl) (BUY_IN_COST g))
                   (random_shuffle (players g)) = true
                 <-> Forall (fun pl => (coins pl < inject_Z (BUY_IN_COST g))%Q)
                       (players g)).
  { rewrite forallb_Forall, Hperm. apply Forall_iff. intros pl. apply coins_lt_iff. }
  assert (Hover : forallb (fun pl => coins_lt (coins pl) (BUY_IN_COST g))
                    (random_shuffle (players g)) = true ->
                  play_round net random_shuffle fuel g
                  = Ok (false, set_players (random_shuffle (players g)) g)).
  { intros H. unfold play_round. cbn [players set_players BUY_IN_COST].
    rewrite H. reflexivity. }
  split; [split|].
  - intros H. apply Hover, Hiff, H.
  - intros H. apply Hiff.
    destruct (forallb _ (random_shuffle (players g))) eqn:E; [reflexivity|].
    exfalso. exact (play_round_not_over _ _ _ _ _ E H).
  - intros g' H.
    destruct (forallb (fun pl => coins_lt (coins pl) (BUY_IN_COST g))
                (random_shuffle (players g))) eqn:E.
    + rewrite (Hover eq_refl) in H. congruence.
    + exfalso. exact (play_round_not_over _ _ _ _ _ E H).
Qed.

Lemma round_is_over_iff_all_broke_witness :
  let g := new_game [mkPlayer "a" [] 9 StudentStrategy []] [] in
  Forall (fun pl => (coins pl < inject_Z (BUY_IN_COST g))%Q) (players g)
  <-> play_round no_network (fun l => l) 0 g
      = Ok (false, set_players (players g) g).
Proof.
  intros g.
  apply (proj1 (round_is_over_iff_all_broke no_network (fun l => l) 0 g
                  (fun l => reflexivity l))).
Defined.

(** ** The ante *)

Lemma active_from_spec cost ps : forall i j,
  j ∈ active_from cost i ps
  <-> exists k pl, j = (i + k)%nat /\ ps !! k = Some pl
        /\ (inject_Z cost <= coins pl)%Q.
Proof.
  induction ps as [|x ps IH]; intros i j; simpl.
  - split; [intros H; inversion H | intros (k & pl & _ & H & _); discriminate].
  - destruct (coins_ge (coins x) cost) eqn:E.
    + rewrite elem_of_cons, IH. split.
      * intros [->|(k & pl & -> & Hk & Hc)].
        -- exists 0%nat, x. split; [lia|]. split; [reflexivity|].
           apply coins_ge_iff, E.
        -- exists (S k), pl. split; [lia|]. split; assumption.
      * intros ([|k] & pl & -> & Hk & Hc).
        -- left. lia.
        -- right. exists k, pl. split; [lia|]. split; assumption.
    + rewrite IH. split.
      * intros (k & pl & -> & Hk & Hc). exists (S k), pl.
        split; [lia|]. split; assumption.
      * intros ([|k] & pl & -> & Hk & Hc).
        -- simpl in Hk. injection Hk as <-. apply coins_ge_iff in Hc. congruence.
        -- exists k, pl. split; [lia|]. split; assumption.
Qed.

Lemma active_from_sorted cost ps : forall i,
  StronglySorted lt (active_from cost i ps)
  /\ Forall (fun j => (i <= j)%nat) (active_from cost i ps).
Proof.
  induction ps as [|x ps IH]; intros i; simpl.
  - split; constructor.
  - destruct (IH (S i)) as [Hs Hf].
    destruct (coins_ge (coins x) cost).
    + split.
      * constructor; [exact Hs|]. eapply Forall_impl; [exact Hf|].
        intros j Hj. simpl in Hj. lia.
      * constructor; [lia|]. eapply Forall_impl; [exact Hf|].
        intros j Hj. simpl in Hj. lia.
    + split; [exact Hs|]. eapply Forall_impl; [exact Hf|].
      intros j Hj. simpl in Hj. lia.
Qed.

(** X15.  The players of the round and the players who pay agree.  The
    active list names, in increasing order and once each, exactly the seats
    whose balance reaches the ante; a player at such a seat pays exactly one
    ante and holds one empty hand; every other player is left as it was. *)
Theorem ante_is_paid_by_the_active (cost : Z) (ps : list Player) :
  (forall j, j ∈ active_from cost 0 ps
             <-> exists pl, ps !! j = Some pl /\ (inject_Z cost <= coins pl)%Q)
  /\ StronglySorted lt (active_from cost 0 ps)
  /\ length (pay_ante cost <$> ps) = length ps
  /\ (forall j pl, ps !! j = Some pl ->
        exists pl', (pay_ante cost <$> ps) !! j = Some pl'
          /\ name pl' = name pl /\ strategy pl' = strategy pl
          /\ told pl' = told pl
          /\ (j ∈ active_from cost 0 ps ->
                hands pl' = [Hand_init []]
                /\ coins pl' = (coins pl - inject_Z cost)%Q)
          /\ (j ∉ active_from cost 0 ps -> pl' = pl)).
Proof.
  assert (Hact : forall j, j ∈ active_from cost 0 ps
             <-> exists pl, ps !! j = Some pl /\ (inject_Z cost <= coins pl)%Q).
  { intros j. rewrite active_from_spec. split.
    - intros (k & pl & -> & Hk & Hc). exists pl. split; assumption.
    - intros (pl & Hk & Hc). exists j, pl. split; [lia|]. split; assumption. }
  split; [exact Hact|]. split; [apply active_from_sorted|].
  split; [apply length_fmap|].
  intros j pl Hj. exists (pay_ante cost pl).
  rewrite list_lookup_fmap, Hj. split; [reflexivity|].
  unfold pay_ante. destruct (coins_ge (coins pl) cost) eqn:E.
  - split; [reflexivity|]. split; [reflexivity|]. split; [reflexivity|]. split.
    + intros _. split; reflexivity.
    + intros Hn. exfalso. apply Hn, Hact.
      exists pl. split; [exact Hj | apply coins_ge_iff, E].
  - split; [reflexivity|]. split; [reflexivity|]. split; [reflexivity|]. split.
    + intros Ha. apply Hact in Ha as (pl0 & Hj0 & Hc).
      rewrite Hj in Hj0. injection Hj0 as <-.
      apply coins_ge_iff in Hc. congruence.
    + intros _. reflexivity.
Qed.

Lemma ante_is_paid_by_the_active_witness :
  let ps := [mkPlayer "a" [] 9 StudentStrategy [];
             mkPlayer "b" [hand_of [R2]] 10 StudentStrategy []] in
  exists pl', (pay_ante 10 <$> ps) !! 1%nat = Some pl'
    /\ name pl' = "b" /\ strategy pl' = StudentStrategy /\ told pl' = []
    /\ (1%nat ∈ active_from 10 0 ps ->
          hands pl' = [Hand_init []] /\ coins pl' = (10 - inject_Z 10)%Q)
    /\ (1%nat ∉ active_from 10 0 ps -> pl' = mkPlayer "b" [hand_of [R2]] 10 StudentStrategy []).
Proof.
  intros ps.
  exact (proj2 (proj2 (proj2 (ante_is_paid_by_the_active 10 ps))) 1%nat _ eq_refl).
Defined.

(** ** Answers that end the turn, and HIT *)

Lemma asked_coins house_copy p i h0 m g q :
  player_coins (asked house_copy p i h0 m g) q = player_coins g q.
Proof.
  unfold player_coins, asked. cbn [players emit].
  destruct (decide (p = q)) as [->|Hne].
  - rewrite lookup_upd_player_eq. cbn [players emit].
    destruct (players g !! q); reflexivity.
  - rewrite lookup_upd_player_ne by exact Hne. reflexivity.
Qed.

Lemma hand_iteration_asked net house_copy p i g pl h0 :
  players g !! p = Some pl -> hands pl !! 0%nat = Some h0 ->
  hand_iteration net house_copy p i g
  = let g0 := asked house_copy p i h0 (play_move (strategy pl) (told pl) h0) g in
    let* (playing, g1) :=
      match play_move (strategy pl) (told pl) h0 with
      | HIT =>
          let* (c, g1) := _draw_card net g0 in
          Ok (true, upd_hand p i (fun h => add_card h c) g1)
      | SPLIT =>
          if can_split (hand_at g0 p i) then
            match players g0 !! p with
            | None => Raise IndexError
            | Some pl1 =>
                let* pl2 := split_hand i pl1 in
                let g1 := set_players (<[p := pl2]> (players g0)) g0 in
                let g2 := upd_player p
                            (fun x => set_coins (coins x - inject_Z (BUY_IN_COST g1))%Q x)
                            g1 in
                let* g3 := fill_hands net p (length (player_hands g2 p)) 0 g2 in
                Ok (true, g3)
            end
          else Ok (true, g0)
      | DOUBLE_DOWN =>
          let g1 := upd_player p
                      (fun x => set_coins (coins x - inject_Z (BUY_IN_COST g0))%Q x)
                      g0 in
          let* (c, g2) := _draw_card net g1 in
          Ok (false, upd_hand p i (fun h => double_down h c) g2)
      | STAND => Ok (false, g0)
      | SURRENDER => Ok (false, upd_hand p i set_surrendered g0)
      | OTHER => Ok (false, g0)
      end in
    Ok (if score (hand_at g1 p i) >? 21 then false else playing, g1).
Proof.
  intros Hp H0. unfold hand_iteration.
  change (players (emit (ShowTable house_copy (Some (p, i))) g)) with (players g).
  rewrite Hp, H0. reflexivity.
Qed.

(** X16.  STAND, SURRENDER and any unrecognised answer end the turn of the
    hand at once, on any hand and at any point of the turn.  STAND and an
    unrecognised answer change no hand, no balance and not the deck;
    SURRENDER only marks the hand being played, whatever its number of
    cards. *)
Theorem turn_ending_answers
    (net : Network) (house_copy : Hand) (p i : nat) (g : GameController)
    (pl : Player) (h0 : Hand) (m : Move) :
  players g !! p = Some pl ->
  hands pl !! 0%nat = Some h0 ->
  play_move (strategy pl) (told pl) h0 = m ->
  (m = STAND \/ m = OTHER ->
     let g' := asked house_copy p i h0 m g in
     (forall fuel, play_hand net house_copy (S fuel) p i g = Ok g')
     /\ player_hands g' p = hands pl
     /\ player_coins g' p = coins pl
     /\ deck g' = deck g)
  /\ (m = SURRENDER ->
     let g' := upd_hand p i set_surrendered (asked house_copy p i h0 m g) in
     (forall fuel, play_hand net house_copy (S fuel) p i g = Ok g')
     /\ player_hands g' p = alter set_surrendered i (hands pl)
     /\ player_coins g' p = coins pl
     /\ deck g' = deck g).
Proof.
  intros Hp H0 Hm.
  assert (Hh : forall m', player_hands (asked house_copy p i h0 m' g) p = hands pl).
  { intros m'. rewrite asked_hands. unfold player_hands. rewrite Hp. reflexivity. }
  assert (Hc : forall m', player_coins (asked house_copy p i h0 m' g) p = coins pl).
  { intros m'. rewrite asked_coins. unfold player_coins. rewrite Hp. reflexivity. }
  split.
  - intros Hcase g'. split; [|split; [apply Hh|split; [apply Hc|reflexivity]]].
    intros fuel. cbn [play_hand].
    rewrite (hand_iteration_asked _ _ _ _ _ _ _ Hp H0), Hm.
    destruct Hcase as [-> | ->]; cbn [bind];
      destruct (score _ >? 21); reflexivity.
  - intros -> g'. split; [|split; [|split; [|reflexivity]]].
    + intros fuel. cbn [play_hand].
      rewrite (hand_iteration_asked _ _ _ _ _ _ _ Hp H0), Hm. cbn [bind].
      destruct (score _ >? 21); reflexivity.
    + unfold g'. rewrite player_hands_upd_hand, Hh. reflexivity.
    + unfold g'. rewrite player_coins_upd_hand. apply Hc.
Qed.

Lemma turn_ending_answers_witness :
  let g := dealt_table StudentStrategy [R2; R3; R4] [] in
  let g' := asked (hand_of [R9]) 0 0 (hand_of [R2; R3; R4]) STAND g in
  (forall fuel, play_hand no_network (hand_of [R9]) (S fuel) 0 0 g = Ok g')
  /\ player_hands g' 0 = [hand_of [R2; R3; R4]]
  /\ player_coins g' 0 = 90%Q
  /\ deck g' = deck g.
Proof.
  intros g.
  apply (proj1 (turn_ending_answers no_network (hand_of [R9]) 0 0 g
                  (mkPlayer "a" [hand_of [R2; R3; R4]] 90 StudentStrategy [])
                  (hand_of [R2; R3; R4]) STAND eq_refl eq_refl eq_refl)).
  left. reflexivity.
Defined.

(** X17.  HIT with a card on the local pile: the top card goes, face up, to
    the end of the hand being played; the balance is untouched; the turn
    goes on exactly when the new score is at most 21. *)
Theorem hit_adds_the_top_card
    (net : Network) (house_copy : Hand) (p i : nat) (g : GameController)
    (pl : Player) (h0 h : Hand) (c : Card) (rest : list Card) :
  players g !! p = Some pl ->
  hands pl !! 0%nat = Some h0 ->
  play_move (strategy pl) (told pl) h0 = HIT ->
  hands pl !! i = Some h ->
  Deck.id (deck g) = None ->
  pop (Deck._backup_deck (deck g)) = Some (c, rest) ->
  let h' := add_card h (set_top_down c false) in
  exists g',
    hand_iteration net house_copy p i g = Ok (score h' <=? 21, g')
    /\ player_hands g' p = <[i := h']> (hands pl)
    /\ player_coins g' p = coins pl
    /\ Deck._backup_deck (deck g') = rest.
Proof.
  intros Hp H0 Hm Hi Hid Hpop h'.
  set (g0 := asked house_copy p i h0 HIT g).
  destruct (draw_card_top net g0 c rest Hid Hpop) as (d' & Hdraw & _ & Hrest).
  assert (Hh : player_hands
                 (upd_hand p i (fun x => add_card x (set_top_down c false))
                    (set_players
                       (tell (CardDrawn (set_top_down c false)) <$> players g0)
                       (set_deck d' g0))) p
               = <[i := h']> (hands pl)).
  { rewrite player_hands_upd_hand, (player_hands_tell_all (set_deck d' g0)).
    change (player_hands (set_deck d' g0) p) with (player_hands g0 p).
    unfold g0. rewrite asked_hands. unfold player_hands. rewrite Hp.
    apply (alter_as_insert (fun x => add_card x (set_top_down c false))), Hi. }
  eexists. split; [|split; [exact Hh|split; [|exact Hrest]]].
  - rewrite (hand_iteration_asked _ _ _ _ _ _ _ Hp H0), Hm. cbv zeta.
    fold g0. rewrite Hdraw. cbn [bind].
    rewrite (hand_at_lookup _ p i h').
    + rewrite Z.gtb_ltb, Z.leb_antisym. destruct (21 <? score h'); reflexivity.
    + rewrite Hh. apply list_lookup_insert_eq, (lookup_lt_Some _ _ _ Hi).
  - rewrite player_coins_upd_hand. unfold player_coins.
    cbn [players set_players set_deck]. rewrite list_lookup_fmap.
    unfold g0. rewrite (asked_player _ _ _ _ _ _ _ Hp). reflexivity.
Qed.

Lemma hit_adds_the_top_card_witness :
  let g := dealt_table (always HIT) [R10; R6] [R2; KING] in
  exists g',
    hand_iteration no_network (hand_of [R9]) 0 0 g
    = Ok (score (hand_of [R10; R6; KING]) <=? 21, g')
    /\ player_hands g' 0 = <[0%nat := hand_of [R10; R6; KING]]> [hand_of [R10; R6]]
    /\ player_coins g' 0 = 90%Q
    /\ Deck._backup_deck (deck g') = [card R2 SPADES].
Proof.
  intros g.
  apply (hit_adds_the_top_card no_network (hand_of [R9]) 0 0 g
           (mkPlayer "a" [hand_of [R10; R6]] 90 (always HIT) [])
           (hand_of [R10; R6]) (hand_of [R10; R6]) (card KING SPADES)
           [card R2 SPADES]); reflexivity.
Defined.

(** ** The dealer's turn *)

Lemma foldr_add_shift (a : Z) (l : list Z) : foldr Z.add a l = a + foldr Z.add 0 l.
Proof. induction l as [|x l IH]; simpl; lia. Qed.

Lemma hard_total_add_card h c :
  hard_total (add_card h c) = hard_total h + rank_value (value c).
Proof.
  unfold hard_total, add_card. cbn [cards].
  rewrite map_app, foldr_app. simpl. rewrite foldr_add_shift. lia.
Qed.

Lemma hard_total_le_score h : hard_total h <= score h.
Proof.
  rewrite score_closed_form.
  destruct (existsb is_ace (cards h) && (hard_total h + 10 <=? 21)); lia.
Qed.

Lemma house_turn_post net : forall fuel g g',
  house_turn net fuel g = Ok g' ->
  house_draws (house g') = false
  /\ cards (house g) `prefix_of` cards (house g')
  /\ (forall p, player_hands g' p = player_hands g p
                /\ player_coins g' p = player_coins g p).
Proof.
  induction fuel as [|fuel IH]; intros g g' H; [discriminate|].
  cbn [house_turn] in H. destruct (house_draws (house g)) eqn:Hd.
  - destruct (_draw_card net g) as [[c g1]| |] eqn:Hdraw; cbn [bind] in H;
      try discriminate.
    destruct (IH _ _ H) as (Hstop & Hpre & Hpl).
    destruct (draw_card_deck _ _ _ _ Hdraw) as (_ & _ & _ & Hh).
    split; [exact Hstop|]. split.
    + etransitivity; [|exact Hpre]. cbn [house emit set_house add_card cards].
      rewrite Hh. apply prefix_app_r. reflexivity.
    + intros p. destruct (Hpl p) as [H1 H2]. split.
      * rewrite H1. exact (player_hands_draw _ _ _ _ p Hdraw).
      * rewrite H2. exact (player_coins_draw _ _ _ _ p Hdraw).
  - injection H as <-. split; [exact Hd|]. split; [reflexivity|].
    intros p. split; reflexivity.
Qed.

Lemma house_turn_terminates net : forall fuel g,
  Deck.id (deck g) = None ->
  (Z.to_nat (18 - hard_total (house g)) <= length (Deck._backup_deck (deck g)))%nat ->
  (Z.to_nat (18 - hard_total (house g)) < fuel)%nat ->
  exists g', house_turn net fuel g = Ok g'.
Proof.
  induction fuel as [|fuel IH]; intros g Hid Hpile Hfuel; [lia|].
  cbn [house_turn]. destruct (house_draws (house g)) eqn:Hd; [|eauto].
  assert (Hsc : score (house g) <= 17).
  { apply house_draws_iff in Hd as [H | [H _]]; lia. }
  pose proof (hard_total_le_score (house g)) as Hle.
  destruct (Deck._backup_deck (deck g)) as [|x l] eqn:Hp using rev_ind;
    [simpl in Hpile; lia|].
  clear IHl.
  destruct (draw_card_top net g x l Hid) as (d' & Hdraw & Hid' & Hrest).
  { rewrite Hp. apply pop_snoc. }
  rewrite Hdraw. cbn [bind]. apply IH.
  - exact Hid'.
  - cbn [house deck emit set_house set_players set_deck]. rewrite Hrest.
    rewrite hard_total_add_card.
    pose proof (rank_value_pos (value (set_top_down x false))).
    rewrite length_app in Hpile. simpl in Hpile. lia.
  - cbn [house deck emit set_house set_players set_deck].
    rewrite hard_total_add_card.
    pose proof (rank_value_pos (value (set_top_down x false))). lia.
Qed.

(** X18.  The dealer's loop.  When it returns, the dealer holds at least 17,
    and a 17 only without an ace; the cards the dealer held are still the
    first cards of the hand; no player's hands or balance changed.  Without
    a session, 18 cards on the pile and fuel for 19 passes are always
    enough for it to return. *)
Theorem dealer_turn_ends_on_seventeen (net : Network) :
  (forall fuel g g',
     house_turn net fuel g = Ok g' ->
     17 <= score (house g')
     /\ (score (house g') = 17 -> existsb is_ace (cards (house g')) = false)
     /\ cards (house g) `prefix_of` cards (house g')
     /\ forall p, player_hands g' p = player_hands g p
                  /\ player_coins g' p = player_coins g p)
  /\ (forall fuel g,
     Deck.id (deck g) = None ->
     (18 <= length (Deck._backup_deck (deck g)))%nat ->
     (19 <= fuel)%nat ->
     exists g', house_turn net fuel g = Ok g').
Proof.
  split.
  - intros fuel g g' H. destruct (house_turn_post _ _ _ _ H) as (Hstop & Hpre & Hpl).
    assert (Hn : ~ (score (house g') <= 16
                    \/ (score (house g') = 17
                        /\ existsb is_ace (cards (house g')) = true))).
    { intros Hc. apply house_draws_iff in Hc. congruence. }
    split; [lia|]. split; [|split; assumption].
    intros H17. destruct (existsb is_ace (cards (house g'))); [|reflexivity].
    exfalso. apply Hn. right. split; [exact H17 | reflexivity].
  - intros fuel g Hid Hpile Hfuel.
    pose proof (hard_total_cards_nonneg (cards (house g))) as Hnn.
    fold (hard_total (house g)) in Hnn.
    apply house_turn_terminates; [exact Hid | lia | lia].
Qed.

Lemma dealer_turn_ends_on_seventeen_witness :
  let g := set_house (hand_of [ACE; R6])
             (new_game [] (replicate 18 (card ACE SPADES))) in
  exists g', house_turn no_network 19 g = Ok g'
             /\ 17 <= score (house g')
             /\ cards (house g) `prefix_of` cards (house g').
Proof.
  intros g.
  destruct (proj2 (dealer_turn_ends_on_seventeen no_network) 19%nat g eq_refl)
    as [g' Hg']; [simpl; lia | lia |].
  exists g'. split; [exact Hg'|].
  destruct (proj1 (dealer_turn_ends_on_seventeen no_network) _ _ _ Hg')
    as (H17 & _ & Hpre & _).
  split; assumption.
Defined.

(** ** Settlement of a player *)







(** * Further properties: building the supply and the table *)





Lemma deck_init_pile_length random_shuffle n shuffle :
  (forall l, random_shuffle l ≡ₚ l) ->
  length (Deck._backup_deck (Deck.init random_shuffle n shuffle)) = (52 * n)%nat.
Proof.
  intros Hperm. unfold Deck.init. cbn [Deck._backup_deck].
  destruct shuffle; rewrite ?Hperm; apply piles_length.
Qed.

Lemma seat_humans_spec ask_name human start_coins : forall k i,
  length (seat_humans ask_name human start_coins k i) = k
  /\ forall j, (j < k)%nat ->
       seat_humans ask_name human start_coins k i !! j
       = Some (Player_init (ask_name (S (i + j))) human start_coins).
Proof.
  induction k as [|k IH]; intros i; simpl.
  - split; [reflexivity | intros j Hj; lia].
  - destruct (IH (S i)) as [Hl Hj]. split; [lia|].
    intros [|j] Hlt; simpl.
    + rewrite Nat.add_0_r. reflexivity.
    + rewrite Hj by lia. do 3 f_equal. lia.
Qed.

(** X21.  [start_game] seats the humans, named by the view's answers for
    1, 2, ... in that order, and after them one bot per strategy class,
    each with the start balance, no hand and nothing told; the deck holds
    the packs asked for and no session.  Asking for bots without giving
    strategy classes raises [IndexError].  When the start balance reaches
    the ante and somebody is seated, the first round is never over before
    it begins. *)
Theorem start_game_seats_the_players
    (random_shuffle : list Card -> list Card)
    (decks_count players_count bots_count : nat)
    (ask_name : nat -> string) (human : Strategy) (start_coins : Z)
    (strategy_classes : option (list (string * Strategy))) :
  (forall l, random_shuffle l ≡ₚ l) ->
  let run := start_game random_shuffle decks_count players_count bots_count
               ask_name human start_coins strategy_classes GameController_init in
  (strategy_classes = None -> (0 < bots_count)%nat -> run = Raise IndexError)
  /\ (forall g, run = Ok g ->
        let bots := match strategy_classes with Some l => l | None => [] end in
        length (players g) = (players_count + length bots)%nat
        /\ (forall j, (j < players_count)%nat ->
              players g !! j = Some (Player_init (ask_name (S j)) human start_coins))
        /\ (forall j c, bots !! j = Some c ->
              players g !! (players_count + j)%nat
              = Some (Player_init (fst c) (snd c) start_coins))
        /\ Deck.id (deck g) = None
        /\ length (Deck._backup_deck (deck g)) = (52 * decks_count)%nat
        /\ house g = Hand_init [] /\ BUY_IN_COST g = 10
        /\ (10 <= start_coins -> players g <> [] ->
            forall net shuffle_players fuel g',
              (forall l, shuffle_players l ≡ₚ l) ->
              play_round net shuffle_players fuel g <> Ok (false, g'))).
Proof.
  intros Hperm run.
  destruct (seat_humans_spec ask_name human start_coins players_count 0)
    as [Hlen Hseat].
  split.
  - intros -> Hb. unfold run, start_game. destruct bots_count; [lia | reflexivity].
  - intros g Hg bots. unfold run, start_game, GameController_init in Hg.
    cbn [players set_players set_house set_deck app] in Hg.
    assert (Hps : players g
                  = seat_humans ask_name human start_coins players_count 0
                    ++ ((fun c : string * Strategy =>
                           Player_init (fst c) (snd c) start_coins) <$> bots)
                  /\ deck g = Deck.init random_shuffle decks_count true
                  /\ house g = Hand_init [] /\ BUY_IN_COST g = 10).
    { unfold bots. destruct strategy_classes as [l|].
      - injection Hg as <-. repeat split.
      - destruct bots_count; [|discriminate]. injection Hg as <-.
        cbn. rewrite app_nil_r. repeat split. }
    destruct Hps as (Hps & Hdeck & Hhouse & Hcost).
    split; [rewrite Hps, length_app, length_fmap, Hlen; reflexivity|].
    split; [|split; [|split; [|split; [|split; [exact Hhouse|split; [exact Hcost|]]]]]].
    + intros j Hj. rewrite Hps, lookup_app_l by lia. apply Hseat, Hj.
    + intros j c Hc. rewrite Hps. rewrite <- Hlen at 1.
      rewrite lookup_app_r by lia.
      replace (length _ + j - length _)%nat with j by lia.
      rewrite list_lookup_fmap, Hc. reflexivity.
    + rewrite Hdeck. reflexivity.
    + rewrite Hdeck.
      apply (deck_init_pile_length random_shuffle decks_count true Hperm).
    + intros Hsc Hne net shuffle_players fuel g' Hsp.
      apply play_round_not_over. rewrite Hcost.
      destruct (forallb _ (shuffle_players (players g))) eqn:E; [|reflexivity].
      exfalso. apply forallb_Forall in E. rewrite Hsp in E.
      destruct (players g) as [|x l] eqn:Hx; [congruence|].
      inversion E as [|? ? Hlt _]; subst. apply coins_lt_iff in Hlt.
      assert (Hin : x ∈ x :: l) by left.
      rewrite Hps in Hin. apply elem_of_app in Hin as [Hin|Hin].
      * apply list_elem_of_lookup in Hin as [j Hj].
        pose proof (lookup_lt_Some _ _ _ Hj) as Hjl. rewrite Hlen in Hjl.
        rewrite (Hseat j Hjl) in Hj. injection Hj as <-.
        cbn [coins Player_init] in Hlt. apply Qlt_not_le in Hlt. apply Hlt.
        rewrite <- Zle_Qle. exact Hsc.
      * apply list_elem_of_fmap in Hin as (c & -> & _).
        cbn [coins Player_init] in Hlt. apply Qlt_not_le in Hlt. apply Hlt.
        rewrite <- Zle_Qle. exact Hsc.
Qed.

Lemma start_game_seats_the_players_witness :
  exists g,
    start_game (fun l => l) 1 1 0 (fun _ => "ann") (always STAND) 1000
      (Some [("StudentStrategy", StudentStrategy)]) GameController_init = Ok g
    /\ length (players g) = 2%nat
    /\ players g !! 0%nat = Some (Player_init "ann" (always STAND) 1000)
    /\ players g !! 1%nat = Some (Player_init "StudentStrategy" StudentStrategy 1000)
    /\ length (Deck._backup_deck (deck g)) = 52%nat
    /\ play_round no_network (fun l => l) 19 g <> Ok (false, g).
Proof.
  eexists. split; [reflexivity|].
  destruct (start_game_seats_the_players (fun l => l) 1 1 0 (fun _ => "ann")
              (always STAND) 1000 (Some [("StudentStrategy", StudentStrategy)])
              (fun l => reflexivity l)) as [_ H].
  destruct (H _ eq_refl) as (H1 & H2 & H3 & _ & H5 & _ & _ & H8).
  split; [exact H1|].
  split; [apply (H2 0%nat); lia|].
  split; [apply (H3 0%nat _ eq_refl)|].
  split; [exact H5|].
  apply H8; [lia | discriminate | intros l; reflexivity].
Defined.

(** * Further properties: who is touched by a round *)

Lemma same_person_refl x : same_person x x.
Proof. repeat split; reflexivity. Qed.

Lemma same_person_trans x y z : same_person x y -> same_person y z -> same_person x z.
Proof.
  intros (N1 & S1 & T1) (N2 & S2 & T2). repeat split; try congruence.
  etransitivity; eassumption.
Qed.

Lemma same_person_tell n x : same_person x (tell n x).
Proof. repeat split. cbn. apply prefix_app_r. reflexivity. Qed.

Lemma kept_refl S g : kept S g g.
Proof.
  split; [reflexivity|]. split; [reflexivity|].
  intros j x y Hx Hy. rewrite Hx in Hy. injection Hy as <-.
  split; [apply same_person_refl | intros _; split; reflexivity].
Qed.

Lemma kept_trans S a b c : kept S a b -> kept S b c -> kept S a c.
Proof.
  intros (L1 & A1 & H1) (L2 & A2 & H2).
  split; [congruence|]. split; [congruence|].
  intros j x z Hx Hz.
  destruct (lookup_lt_is_Some_2 (players b) j) as [y Hy].
  { rewrite L1. exact (lookup_lt_Some _ _ _ Hx). }
  destruct (H1 j x y Hx Hy) as [P1 F1], (H2 j y z Hy Hz) as [P2 F2].
  split; [eapply same_person_trans; eassumption|].
  intros Hn. destruct (F1 Hn) as [E1 E2], (F2 Hn) as [E3 E4]. split; congruence.
Qed.

Lemma kept_weaken (S S' : nat -> Prop) g g' :
  (forall j, S j -> S' j) -> kept S g g' -> kept S' g g'.
Proof.
  intros Hs (L & A & H). split; [exact L|]. split; [exact A|].
  intros j x y Hx Hy. destruct (H j x y Hx Hy) as [P F].
  split; [exact P|]. intros Hn. apply F. intros HS. apply Hn, Hs, HS.
Qed.

Lemma kept_same S g g' :
  players g' = players g -> active_players g' = active_players g -> kept S g g'.
Proof.
  intros P A. split; [rewrite P; reflexivity|]. split; [exact A|].
  rewrite P. intros j x y Hx Hy. rewrite Hx in Hy. injection Hy as <-.
  split; [apply same_person_refl | intros _; split; reflexivity].
Qed.

Lemma kept_upd_player p f g :
  (forall x, same_person x (f x)) -> kept (eq p) g (upd_player p f g).
Proof.
  intros Hf. split; [apply length_alter|]. split; [reflexivity|].
  intros j x y Hx Hy. destruct (decide (p = j)) as [->|Hne].
  - rewrite lookup_upd_player_eq, Hx in Hy. injection Hy as <-.
    split; [apply Hf | intros Hn; congruence].
  - rewrite lookup_upd_player_ne, Hx in Hy by exact Hne. injection Hy as <-.
    split; [apply same_person_refl | intros _; split; reflexivity].
Qed.

Lemma kept_upd_tell S p n g : kept S g (upd_player p (tell n) g).
Proof.
  split; [apply length_alter|]. split; [reflexivity|].
  intros j x y Hx Hy. destruct (decide (p = j)) as [->|Hne].
  - rewrite lookup_upd_player_eq, Hx in Hy. injection Hy as <-.
    split; [apply same_person_tell | intros _; split; reflexivity].
  - rewrite lookup_upd_player_ne, Hx in Hy by exact Hne. injection Hy as <-.
    split; [apply same_person_refl | intros _; split; reflexivity].
Qed.

Lemma kept_draw S net g c g' : _draw_card net g = Ok (c, g') -> kept S g g'.
Proof.
  intros H. pose proof (draw_card_players _ _ _ _ H) as Hps.
  split; [rewrite Hps; apply length_fmap|]. split.
  - revert H. unfold _draw_card.
    destruct (Deck.draw_card net false (deck g)) as [[[c'|] d]| |]; simpl;
      try discriminate.
    intros [= <- <-]. reflexivity.
  - intros j x y Hx Hy. rewrite Hps, list_lookup_fmap, Hx in Hy.
    injection Hy as <-.
    split; [apply same_person_tell | intros _; split; reflexivity].
Qed.

Lemma same_person_set_hands hs x : same_person x (set_hands hs x).
Proof. repeat split; reflexivity. Qed.

Lemma same_person_set_coins c x : same_person x (set_coins c x).
Proof. repeat split; reflexivity. Qed.

Lemma kept_upd_hand p i f g : kept (eq p) g (upd_hand p i f g).
Proof. apply kept_upd_player. intros x. apply same_person_set_hands. Qed.

Lemma kept_fill_hand net p j : forall k g g',
  fill_hand net p j k g = Ok g' -> kept (eq p) g g'.
Proof.
  induction k as [|k IH]; intros g g' H; cbn [fill_hand] in H.
  - injection H as <-. apply kept_refl.
  - destruct (_draw_card net g) as [[c g1]| |] eqn:Hd; cbn [bind] in H;
      try discriminate.
    eapply kept_trans; [exact (kept_draw _ _ _ _ _ Hd)|].
    eapply kept_trans; [apply kept_upd_hand|]. apply IH, H.
Qed.

Lemma kept_fill_hands net p : forall n j g g',
  fill_hands net p n j g = Ok g' -> kept (eq p) g g'.
Proof.
  induction n as [|n IH]; intros j g g' H; cbn [fill_hands] in H.
  - injection H as <-. apply kept_refl.
  - destruct (fill_hand net p j _ g) as [g1| |] eqn:Hf; cbn [bind] in H;
      try discriminate.
    eapply kept_trans; [exact (kept_fill_hand _ _ _ _ _ _ Hf)|]. eapply IH, H.
Qed.

Lemma kept_deal_hands net p : forall k i g g',
  deal_hands net p k i g = Ok g' -> kept (eq p) g g'.
Proof.
  induction k as [|k IH]; intros i g g' H; cbn [deal_hands] in H.
  - injection H as <-. apply kept_refl.
  - destruct (_draw_card net g) as [[c g1]| |] eqn:Hd; cbn [bind] in H;
      try discriminate.
    eapply kept_trans; [exact (kept_draw _ _ _ _ _ Hd)|].
    eapply kept_trans; [apply kept_upd_hand|]. eapply IH, H.
Qed.

Lemma kept_deal_players net : forall ps g g',
  deal_players net ps g = Ok g' -> kept (fun j => j ∈ ps) g g'.
Proof.
  induction ps as [|p ps IH]; intros g g' H; cbn [deal_players] in H.
  - injection H as <-. apply kept_refl.
  - destruct (deal_hands net p _ 0 g) as [g1| |] eqn:Hd; cbn [bind] in H;
      try discriminate.
    eapply kept_trans.
    + eapply kept_weaken; [|exact (kept_deal_hands _ _ _ _ _ _ Hd)].
      intros j <-. left.
    + eapply kept_weaken; [|exact (IH _ _ H)]. intros j Hj. right. exact Hj.
Qed.

Lemma same_person_split i x x2 : split_hand i x = Ok x2 -> same_person x x2.
Proof.
  unfold split_hand. destruct (hands x !! i) as [h|].
  - destruct (split h) as [[h' hn]| |]; cbn [bind]; try discriminate.
    intros [= <-]. apply same_person_set_hands.
  - intros [= <-]. apply same_person_refl.
Qed.

Lemma kept_asked S house_copy p i h0 m g : kept S g (asked house_copy p i h0 m g).
Proof.
  unfold asked.
  eapply kept_trans; [|apply kept_same; reflexivity].
  eapply kept_trans; [|apply kept_upd_tell].
  apply kept_same; reflexivity.
Qed.

Section TurnFrame.

Variable net : Network.
Variable house_copy : Hand.

(** One pass of the loop for a hand of player [p] touches no other seat. *)
Lemma hand_iteration_kept p i g b g' :
  hand_iteration net house_copy p i g = Ok (b, g') -> kept (eq p) g g'.
Proof.
  unfold hand_iteration.
  change (players (emit (ShowTable house_copy (Some (p, i))) g)) with (players g).
  destruct (players g !! p) as [pl|] eqn:Hp; [|discriminate].
  destruct (hands pl !! 0%nat) as [h0|] eqn:H0; [|discriminate].
  set (m := play_move (strategy pl) (told pl) h0).
  fold (asked house_copy p i h0 m g).
  set (g0 := asked house_copy p i h0 m g).
  pose proof (asked_player house_copy p i h0 m g pl Hp) as Hp0. fold g0 in Hp0.
  intros H. eapply kept_trans; [apply (kept_asked _ house_copy p i h0 m)|].
  fold g0. destruct m eqn:Hm.
  - destruct (_draw_card net g0) as [[c g1]| |] eqn:Hd; cbn [bind] in H;
      try discriminate.
    injection H as _ <-.
    eapply kept_trans; [exact (kept_draw _ _ _ _ _ Hd) | apply kept_upd_hand].
  - destruct (can_split (hand_at g0 p i)).
    + rewrite Hp0 in H.
      destruct (split_hand i (tell (MoveAsked h0) pl)) as [pl2| |] eqn:Hs;
        cbn [bind] in H; try discriminate.
      match type of H with
      | (let* _ := (let* _ := fill_hands net p ?n 0%nat ?g2 in _) in _) = _ =>
          destruct (fill_hands net p n 0%nat g2) as [g3| |] eqn:Hf;
            cbn [bind] in H; try discriminate;
            assert (H2 : kept (eq p) g0 g2)
      end.
      { eapply kept_trans; [|apply kept_upd_player; intros x; apply same_person_set_coins].
        split; [cbn; apply length_insert|]. split; [reflexivity|].
        intros j x y Hx Hy. cbn [players set_players] in Hy.
        destruct (decide (p = j)) as [<-|Hne].
        - rewrite list_lookup_insert_eq in Hy by exact (lookup_lt_Some _ _ _ Hp0).
          injection Hy as <-. rewrite Hp0 in Hx. injection Hx as <-.
          split; [exact (same_person_split _ _ _ Hs) | intros Hn; congruence].
        - rewrite list_lookup_insert_ne, Hx in Hy by exact Hne.
          injection Hy as <-.
          split; [apply same_person_refl | intros _; split; reflexivity]. }
      injection H as _ <-.
      eapply kept_trans; [exact H2 | exact (kept_fill_hands _ _ _ _ _ _ Hf)].
    + cbn [bind] in H. injection H as _ <-. apply kept_refl.
  - match type of H with
    | (let* _ := (let* _ := _draw_card net ?g1 in _) in _) = _ =>
        destruct (_draw_card net g1) as [[c g2]| |] eqn:Hd; cbn [bind] in H;
          try discriminate
    end.
    injection H as _ <-.
    eapply kept_trans;
      [apply kept_upd_player; intros x; apply same_person_set_coins|].
    eapply kept_trans; [exact (kept_draw _ _ _ _ _ Hd) | apply kept_upd_hand].
  - cbn [bind] in H. injection H as _ <-. apply kept_refl.
  - cbn [bind] in H. injection H as _ <-. apply kept_upd_hand.
  - cbn [bind] in H. injection H as _ <-. apply kept_refl.
Qed.

Lemma play_hand_kept : forall fuel p i g g',
  play_hand net house_copy fuel p i g = Ok g' -> kept (eq p) g g'.
Proof.
  induction fuel as [|fuel IH]; intros p i g g' H; [discriminate|].
  cbn [play_hand] in H.
  destruct (hand_iteration net house_copy p i g) as [[b g1]| |] eqn:Hit;
    cbn [bind] in H; try discriminate.
  pose proof (hand_iteration_kept _ _ _ _ _ Hit) as H1.
  destruct b.
  - eapply kept_trans; [exact H1 | exact (IH _ _ _ _ H)].
  - injection H as <-. exact H1.
Qed.

Lemma play_hands_kept : forall fuel p i g g',
  play_hands net house_copy fuel p i g = Ok g' -> kept (eq p) g g'.
Proof.
  induction fuel as [|fuel IH]; intros p i g g' H; [discriminate|].
  cbn [play_hands] in H. destruct (i <? length (player_hands g p))%nat.
  - destruct (play_hand net house_copy fuel p i g) as [g1| |] eqn:Hh;
      cbn [bind] in H; try discriminate.
    eapply kept_trans; [exact (play_hand_kept _ _ _ _ _ Hh) | exact (IH _ _ _ _ H)].
  - injection H as <-. apply kept_refl.
Qed.

Lemma play_players_kept fuel : forall ps g g',
  play_players net house_copy fuel ps g = Ok g' -> kept (fun j => j ∈ ps) g g'.
Proof.
  induction ps as [|p ps IH]; intros g g' H; cbn [play_players] in H.
  - injection H as <-. apply kept_refl.
  - destruct (play_hands net house_copy fuel p 0 g) as [g1| |] eqn:Hh;
      cbn [bind] in H; try discriminate.
    eapply kept_trans.
    + eapply kept_weaken; [|exact (play_hands_kept _ _ _ _ _ Hh)].
      intros j <-. left.
    + eapply kept_weaken; [|exact (IH _ _ H)]. intros j Hj. right. exact Hj.
Qed.

End TurnFrame.

Lemma house_turn_kept S net : forall fuel g g',
  house_turn net fuel g = Ok g' -> kept S g g'.
Proof.
  induction fuel as [|fuel IH]; intros g g' H; [discriminate|].
  cbn [house_turn] in H. destruct (house_draws (house g)).
  - destruct (_draw_card net g) as [[c g1]| |] eqn:Hd; cbn [bind] in H;
      try discriminate.
    eapply kept_trans; [exact (kept_draw _ _ _ _ _ Hd)|].
    eapply kept_trans; [|apply IH, H]. apply kept_same; reflexivity.
  - injection H as <-. apply kept_refl.
Qed.

Lemma tell_house_kept S h g : kept S g (tell_house h g).
Proof.
  unfold tell_house. generalize (active_players g) as ps.
  intros ps. revert g. induction ps as [|p ps IH]; intros g; simpl.
  - apply kept_refl.
  - eapply kept_trans; [apply kept_upd_tell | apply IH].
Qed.

Lemma same_person_settle cost house x : same_person x (settle_player cost house x).
Proof. repeat split. cbn. apply prefix_app_r. reflexivity. Qed.

Lemma settle_players_kept : forall ps g,
  kept (fun j => j ∈ ps) g (settle_players ps g).
Proof.
  unfold settle_players.
  induction ps as [|p ps IH]; intros g; simpl.
  - apply kept_refl.
  - eapply kept_trans.
    + eapply kept_weaken;
        [|apply (kept_upd_player p (settle_player (BUY_IN_COST g) (house g)));
          intros x; apply same_person_settle].
      intros j <-. left.
    + eapply kept_weaken; [|apply IH]. intros j Hj. right. exact Hj.
Qed.

(** X22.  A round changes neither the number of seats nor who sits where
    (after the shuffle): every player keeps name and strategy and is only
    told more.  A player below the ante sits the round out: hands and
    balance are exactly what they were, stale hands of an earlier round
    included. *)
Theorem round_leaves_the_broke_untouched
    (net : Network) (random_shuffle : list Player -> list Player)
    (fuel : nat) (g g' : GameController) (b : bool) :
  (forall l, random_shuffle l ≡ₚ l) ->
  play_round net random_shuffle fuel g = Ok (b, g') ->
  length (players g') = length (players g)
  /\ forall j x y,
       random_shuffle (players g) !! j = Some x -> players g' !! j = Some y ->
       name y = name x /\ strategy y = strategy x
       /\ told x `prefix_of` told y
       /\ ((coins x < inject_Z (BUY_IN_COST g))%Q ->
           hands y = hands x /\ coins y = coins x).
Proof.
  intros Hperm H.
  set (ps := random_shuffle (players g)) in *.
  assert (Hlen : length ps = length (players g))
    by (unfold ps; rewrite Hperm; reflexivity).
  unfold play_round in H. cbn [players set_players BUY_IN_COST] in H. fold ps in H.
  destruct (forallb _ ps).
  { injection H as _ <-. cbn [players set_players]. split; [exact Hlen|].
    intros j x y Hx Hy. rewrite Hx in Hy. injection Hy as <-.
    repeat split; reflexivity. }
  match type of H with
  | bind (deal_players net _ ?ga) _ = _ =>
      set (g_a := ga) in *;
      destruct (deal_players net (active_players g_a) g_a) as [g1| |] eqn:H1;
        cbn [bind] in H; try discriminate
  end.
  destruct (_draw_card net g1) as [[c g2]| |] eqn:H2; cbn [bind] in H;
    try discriminate.
  match type of H with
  | bind (deal_players net _ ?gb) _ = _ =>
      set (g2' := gb) in *;
      destruct (deal_players net (active_players g2') g2') as [g3| |] eqn:H3;
        cbn [bind] in H; try discriminate
  end.
  match type of H with
  | bind (play_players net ?hc fuel _ ?gc) _ = _ =>
      set (g3' := gc) in *;
      destruct (play_players net hc fuel (active_players g3') g3') as [g4| |] eqn:H4;
        cbn [bind] in H; try discriminate
  end.
  match type of H with
  | bind (Deck.draw_card net false (deck ?gd)) _ = _ =>
      set (g4' := gd) in *;
      destruct (Deck.draw_card net false (deck g4')) as [[[c2|] d]| |] eqn:H5;
        cbn [bind] in H; try discriminate
  end.
  match type of H with
  | bind (house_turn net fuel ?ge) _ = _ =>
      set (g5 := ge) in *;
      destruct (house_turn net fuel g5) as [g6| |] eqn:H6;
        cbn [bind] in H; try discriminate
  end.
  injection H as _ <-.
  set (act := active_from (BUY_IN_COST g) 0 ps).
  set (S := fun j => j ∈ act).
  assert (A0 : active_players g_a = act) by reflexivity.
  assert (K1 : kept S g_a g1).
  { rewrite A0 in H1. exact (kept_deal_players _ _ _ _ H1). }
  assert (K2 : kept S g1 g2').
  { eapply kept_trans; [exact (kept_draw _ _ _ _ _ H2)|].
    apply kept_same; reflexivity. }
  assert (A2 : active_players g2' = act).
  { destruct (kept_trans _ _ _ _ K1 K2) as (_ & -> & _). exact A0. }
  assert (K3 : kept S g2' g3).
  { rewrite A2 in H3. exact (kept_deal_players _ _ _ _ H3). }
  assert (K3' : kept S g3 g3') by apply tell_house_kept.
  assert (A3 : active_players g3' = act).
  { destruct (kept_trans _ _ _ _ K3 K3') as (_ & -> & _). exact A2. }
  assert (K4 : kept S g3' g4).
  { rewrite A3 in H4. exact (play_players_kept _ _ _ _ _ _ H4). }
  assert (K4' : kept S g4 g4').
  { subst g4'. eapply kept_trans; [apply (tell_house_kept _ (house g4))|].
    apply kept_same; reflexivity. }
  assert (K5 : kept S g4' g5) by (apply kept_same; reflexivity).
  assert (K6 : kept S g5 g6) by exact (house_turn_kept _ _ _ _ _ H6).
  assert (K : kept S g_a g6).
  { repeat (eapply kept_trans; [eassumption|]). apply kept_refl. }
  assert (A6 : active_players g6 = act).
  { destruct K as (_ & -> & _). exact A0. }
  assert (K7 : kept S g6 (settle_players (active_players g6) g6)).
  { rewrite A6. apply settle_players_kept. }
  destruct (kept_trans _ _ _ _ K K7) as (L & _ & Hk).
  split.
  { rewrite L. subst g_a. cbn [players set_players set_house set_active].
    rewrite length_fmap. exact Hlen. }
  intros j x y Hx Hy.
  assert (Hxa : players g_a !! j = Some (pay_ante (BUY_IN_COST g) x)).
  { subst g_a. cbn [players set_players set_house set_active].
    rewrite list_lookup_fmap, Hx. reflexivity. }
  destruct (Hk j _ y Hxa Hy) as [(N & St & T) F].
  assert (Hsame : name (pay_ante (BUY_IN_COST g) x) = name x
                  /\ strategy (pay_ante (BUY_IN_COST g) x) = strategy x
                  /\ told (pay_ante (BUY_IN_COST g) x) = told x).
  { unfold pay_ante. destruct (coins_ge _ _); repeat split. }
  destruct Hsame as (N0 & S0 & T0).
  split; [congruence|]. split; [congruence|]. split; [rewrite <- T0; exact T|].
  intros Hlt.
  assert (Hnot : ~ S j).
  { unfold S, act. rewrite active_from_spec.
    intros (k & pl & Hjk & Hk' & Hc). simpl in Hjk. subst k.
    rewrite Hx in Hk'. injection Hk' as <-.
    exact (Qlt_not_le _ _ Hlt Hc). }
  destruct (F Hnot) as [Hh Hc].
  assert (Hpa : pay_ante (BUY_IN_COST g) x = x).
  { unfold pay_ante. destruct (coins_ge (coins x) (BUY_IN_COST g)) eqn:E;
      [|reflexivity].
    apply coins_ge_iff in E. exfalso. exact (Qlt_not_le _ _ Hlt E). }
  rewrite Hpa in Hh, Hc. split; assumption.
Qed.

Lemma round_leaves_the_broke_untouched_witness :
  exists g',
    play_round no_network (fun l => l) 5 standing_table = Ok (true, g')
    /\ length (players g') = length (players standing_table)
    /\ forall j x y,
         players standing_table !! j = Some x -> players g' !! j = Some y ->
         name y = name x /\ strategy y = strategy x
         /\ told x `prefix_of` told y
         /\ ((coins x < inject_Z (BUY_IN_COST standing_table))%Q ->
             hands y = hands x /\ coins y = coins x).
Proof.
  eexists. split; [vm_compute; reflexivity|].
  apply (round_leaves_the_broke_untouched no_network (fun l => l) 5
           standing_table _ true).
  - intros l. reflexivity.
  - vm_compute. reflexivity.
Defined.

(** * Further properties: a table of [StudentStrategy] players *)

Lemma still_refl x : still x x.
Proof. repeat split. Qed.

Lemma still_trans x y z : still x y -> still y z -> still x z.
Proof. intros (S1 & C1 & F1) (S2 & C2 & F2). repeat split; congruence. Qed.

Lemma Forall2_still_refl l : Forall2 still l l.
Proof. induction l; constructor; [apply still_refl | assumption]. Qed.

Lemma calm_refl g : Deck.id (deck g) = None -> calm 0 g g.
Proof.
  intros Hid. split; [exact Hid|]. split; [lia|]. split; [reflexivity|].
  split; [reflexivity | apply Forall2_still_refl].
Qed.

Lemma calm_trans n m a b c : calm n a b -> calm m b c -> calm (n + m) a c.
Proof.
  intros (_ & P1 & A1 & B1 & F1) (I2 & P2 & A2 & B2 & F2).
  split; [exact I2|]. split; [lia|]. split; [congruence|]. split; [congruence|].
  eapply Forall2_trans; [|exact F1|exact F2]. exact still_trans.
Qed.

Lemma calm_same g g' :
  Deck.id (deck g) = None -> deck g' = deck g -> players g' = players g ->
  active_players g' = active_players g -> BUY_IN_COST g' = BUY_IN_COST g ->
  calm 0 g g'.
Proof.
  intros Hid D P A B. split; [rewrite D; exact Hid|]. rewrite D, P.
  split; [lia|]. split; [exact A|]. split; [exact B | apply Forall2_still_refl].
Qed.

Lemma calm_upd_player p f g :
  Deck.id (deck g) = None -> (forall x, still x (f x)) ->
  calm 0 g (upd_player p f g).
Proof.
  intros Hid Hf. split; [exact Hid|]. split; [cbn; lia|].
  split; [reflexivity|]. split; [reflexivity|].
  cbn [players upd_player set_players].
  apply Forall2_alter_r; [apply Forall2_still_refl|].
  intros x y Hx Hy _. rewrite Hx in Hy. injection Hy as <-. apply Hf.
Qed.

Lemma still_tell n x : still x (tell n x).
Proof. repeat split. Qed.

Lemma still_add_card i c x :
  still x (set_hands (alter (fun h => add_card h c) i (hands x)) x).
Proof.
  repeat split. cbn [hands set_hands].
  rewrite (list_fmap_alter flags (fun h => add_card h c) (fun b => b)).
  - apply list_alter_id. reflexivity.
  - apply Forall_forall. intros h _. reflexivity.
Qed.

Lemma calm_asked house_copy p i h0 m g :
  Deck.id (deck g) = None -> calm 0 g (asked house_copy p i h0 m g).
Proof.
  intros Hid. split; [exact Hid|]. split; [cbn; lia|].
  split; [reflexivity|]. split; [reflexivity|].
  unfold asked. cbn [players emit upd_player set_players].
  apply Forall2_alter_r; [apply Forall2_still_refl|].
  intros x y Hx Hy _. rewrite Hx in Hy. injection Hy as <-. apply still_tell.
Qed.

Lemma calm_draw net g :
  Deck.id (deck g) = None ->
  (1 <= length (Deck._backup_deck (deck g)))%nat ->
  exists c g', _draw_card net g = Ok (c, g') /\ calm 1 g g' /\ house g' = house g.
Proof.
  intros Hid Hlen.
  destruct (Deck._backup_deck (deck g)) as [|x l] eqn:Hp using rev_ind;
    [simpl in Hlen; lia|]. clear IHl.
  destruct (draw_card_top net g x l Hid) as (d' & Hdraw & Hid' & Hrest).
  { rewrite Hp. apply pop_snoc. }
  eexists _, _. split; [exact Hdraw|]. split; [|reflexivity].
  split; [exact Hid'|]. cbn [deck players set_players set_deck].
  rewrite Hrest, Hp, length_app. split; [simpl; lia|].
  split; [reflexivity|]. split; [reflexivity|].
  apply Forall2_fmap_r. generalize (players g) as ps.
  induction ps; constructor; [apply still_tell | assumption].
Qed.

Lemma calm_hands_length n g g' q :
  calm n g g' -> length (player_hands g' q) = length (player_hands g q).
Proof.
  intros (_ & _ & _ & _ & F). unfold player_hands.
  destruct (players g !! q) as [x|] eqn:Hx.
  - destruct (Forall2_lookup_l _ _ _ _ _ F Hx) as (y & -> & (_ & _ & Hf)).
    apply (f_equal length) in Hf. rewrite !length_fmap in Hf. exact Hf.
  - destruct (players g' !! q) as [y|] eqn:Hy; [|reflexivity].
    destruct (Forall2_lookup_r _ _ _ _ _ F Hy) as (x & Hx' & _). congruence.
Qed.

Lemma calm_seat n g g' p x :
  calm n g g' -> players g !! p = Some x ->
  exists y, players g' !! p = Some y /\ still x y.
Proof. intros (_ & _ & _ & _ & F) Hx. exact (Forall2_lookup_l _ _ _ _ _ F Hx). Qed.

Lemma calm_id n g g' : calm n g g' -> Deck.id (deck g') = None.
Proof. intros [H _]. exact H. Qed.

Lemma calm_pile n g g' :
  calm n g g' ->
  (length (Deck._backup_deck (deck g')) + n
   = length (Deck._backup_deck (deck g)))%nat.
Proof. intros (_ & H & _). exact H. Qed.

Lemma deal_hands_calm net p : forall k i g,
  Deck.id (deck g) = None ->
  (k <= length (Deck._backup_deck (deck g)))%nat ->
  exists g', deal_hands net p k i g = Ok g' /\ calm k g g'.
Proof.
  induction k as [|k IH]; intros i g Hid Hlen.
  - exists g. split; [reflexivity | apply calm_refl, Hid].
  - destruct (calm_draw net g Hid) as (c & g1 & Hd & C1 & _); [lia|].
    cbn [deal_hands]. rewrite Hd. cbn [bind].
    pose proof (calm_id _ _ _ C1) as Hid1. pose proof (calm_pile _ _ _ C1) as Hp1.
    assert (C2 : calm 0 g1 (upd_hand p i (fun h => add_card h c) g1)).
    { apply calm_upd_player; [exact Hid1|]. intros x. apply still_add_card. }
    destruct (IH (S i) (upd_hand p i (fun h => add_card h c) g1))
      as (g' & Hg' & C3); [exact Hid1 | cbn; lia |].
    exists g'. split; [exact Hg'|].
    replace (S k) with (1 + 0 + k)%nat by lia.
    eapply calm_trans; [eapply calm_trans; eassumption | exact C3].
Qed.

Lemma deal_players_calm net : forall ps g,
  Deck.id (deck g) = None ->
  (forall p, p ∈ ps -> length (player_hands g p) = 1%nat) ->
  (length ps <= length (Deck._backup_deck (deck g)))%nat ->
  exists g', deal_players net ps g = Ok g' /\ calm (length ps) g g'.
Proof.
  induction ps as [|p ps IH]; intros g Hid Hone Hlen.
  - exists g. split; [reflexivity | apply calm_refl, Hid].
  - cbn [deal_players]. rewrite (Hone p) by left.
    destruct (deal_hands_calm net p 1 0 g Hid) as (g1 & Hg1 & C1);
      [simpl in Hlen; lia|].
    rewrite Hg1. cbn [bind].
    destruct (IH g1) as (g' & Hg' & C2).
    + exact (calm_id _ _ _ C1).
    + intros q Hq. rewrite (calm_hands_length _ _ _ q C1). apply Hone. right. exact Hq.
    + pose proof (calm_pile _ _ _ C1). simpl in Hlen. lia.
    + exists g'. split; [exact Hg'|].
      change (length (p :: ps)) with (1 + length ps)%nat.
      eapply calm_trans; eassumption.
Qed.

(** A player who stands and holds one hand: one question, and the loop over
    the hands is done. *)
Lemma play_hands_student net house_copy fuel p g pl :
  Deck.id (deck g) = None ->
  players g !! p = Some pl ->
  strategy pl = StudentStrategy ->
  length (hands pl) = 1%nat ->
  (2 <= fuel)%nat ->
  exists g', play_hands net house_copy fuel p 0 g = Ok g' /\ calm 0 g g'.
Proof.
  intros Hid Hp Hs Hl Hf.
  destruct (hands pl) as [|h0 [|? ?]] eqn:Hh; try discriminate.
  destruct fuel as [|[|fuel]]; try lia.
  set (g1 := asked house_copy p 0 h0 STAND g).
  assert (C : calm 0 g g1) by (apply calm_asked, Hid).
  assert (Hit : play_hand net house_copy (S fuel) p 0 g = Ok g1).
  { cbn [play_hand].
    rewrite (hand_iteration_asked _ _ _ _ _ pl h0 Hp) by (rewrite Hh; reflexivity).
    rewrite Hs. cbn [play_move StudentStrategy bind]. fold g1.
    destruct (score _ >? 21); reflexivity. }
  exists g1. split; [|exact C].
  cbn [play_hands]. unfold player_hands at 1. rewrite Hp, Hh.
  cbn [length Nat.ltb Nat.leb]. rewrite Hit. cbn [bind].
  pose proof (calm_hands_length _ _ _ p C) as Hl1.
  unfold player_hands at 2 in Hl1. rewrite Hp, Hh in Hl1. rewrite Hl1.
  reflexivity.
Qed.

Lemma play_players_student net house_copy fuel : forall ps g,
  Deck.id (deck g) = None ->
  (forall p, p ∈ ps -> exists pl, players g !! p = Some pl
                         /\ strategy pl = StudentStrategy
                         /\ length (hands pl) = 1%nat) ->
  (2 <= fuel)%nat ->
  exists g', play_players net house_copy fuel ps g = Ok g' /\ calm 0 g g'.
Proof.
  induction ps as [|p ps IH]; intros g Hid Hall Hf.
  - exists g. split; [reflexivity | apply calm_refl, Hid].
  - destruct (Hall p) as (pl & Hp & Hs & Hl); [left|].
    destruct (play_hands_student net house_copy fuel p g pl Hid Hp Hs Hl Hf)
      as (g1 & Hg1 & C1).
    cbn [play_players]. rewrite Hg1. cbn [bind].
    destruct (IH g1) as (g' & Hg' & C2).
    + exact (calm_id _ _ _ C1).
    + intros q Hq. destruct (Hall q) as (x & Hx & Hsx & Hlx); [right; exact Hq|].
      destruct (calm_seat _ _ _ _ _ C1 Hx) as (y & Hy & (Sy & _ & Fy)).
      exists y. split; [exact Hy|]. split; [congruence|].
      apply (f_equal length) in Fy. rewrite !length_fmap in Fy. congruence.
    + exact Hf.
    + exists g'. split; [exact Hg'|].
      change 0%nat with (0 + 0)%nat. eapply calm_trans; eassumption.
Qed.

Lemma tell_house_calm h g : Deck.id (deck g) = None -> calm 0 g (tell_house h g).
Proof.
  unfold tell_house. generalize (active_players g) as ps.
  intros ps. revert g. induction ps as [|p ps IH]; intros g Hid; simpl.
  - apply calm_refl, Hid.
  - change 0%nat with (0 + 0)%nat. eapply calm_trans.
    + apply (calm_upd_player p (tell (HouseSet h))); [exact Hid|].
      intros x. apply still_tell.
    + apply IH. exact Hid.
Qed.

Lemma house_turn_still net : forall fuel g g',
  house_turn net fuel g = Ok g' ->
  Forall2 still (players g) (players g')
  /\ active_players g' = active_players g /\ BUY_IN_COST g' = BUY_IN_COST g.
Proof.
  induction fuel as [|fuel IH]; intros g g' H; [discriminate|].
  cbn [house_turn] in H. destruct (house_draws (house g)).
  - destruct (_draw_card net g) as [[c g1]| |] eqn:Hd; cbn [bind] in H;
      try discriminate.
    destruct (IH _ _ H) as (F & A & B).
    cbn [players active_players BUY_IN_COST emit set_house] in F, A, B.
    pose proof (draw_card_players _ _ _ _ Hd) as Hps.
    destruct (draw_card_deck _ _ _ _ Hd) as (_ & B1 & _).
    assert (A1 : active_players g1 = active_players g).
    { revert Hd. unfold _draw_card.
      destruct (Deck.draw_card net false (deck g)) as [[[c'|] d]| |]; simpl;
        try discriminate.
      intros [= <- <-]. reflexivity. }
    split; [|split; congruence].
    eapply Forall2_trans; [exact still_trans| |exact F].
    rewrite Hps. apply Forall2_fmap_r. generalize (players g) as ps.
    induction ps; constructor; [apply still_tell | assumption].
  - injection H as <-. split; [apply Forall2_still_refl|]. split; reflexivity.
Qed.

Lemma settle_players_fixed : forall ps g,
  house (settle_players ps g) = house g
  /\ BUY_IN_COST (settle_players ps g) = BUY_IN_COST g.
Proof.
  unfold settle_players. induction ps as [|p ps IH]; intros g; simpl.
  - split; reflexivity.
  - destruct (IH (upd_player p (settle_player (BUY_IN_COST g) (house g)) g))
      as [-> ->].
    split; reflexivity.
Qed.

(** Settlement seat by seat, every seat named once. *)
Lemma settle_players_lookup : forall ps g,
  NoDup ps ->
  forall j x, players g !! j = Some x ->
    players (settle_players ps g) !! j
    = Some (if bool_decide (j ∈ ps)
            then settle_player (BUY_IN_COST g) (house g) x else x).
Proof.
  induction ps as [|p ps IH]; intros g Hnd j x Hx.
  - exact Hx.
  - inversion Hnd as [|? ? Hnin Hnd']; subst.
    change (settle_players (p :: ps) g)
      with (settle_players ps
              (upd_player p (settle_player (BUY_IN_COST g) (house g)) g)).
    destruct (decide (p = j)) as [->|Hne].
    + rewrite (IH _ Hnd' j (settle_player (BUY_IN_COST g) (house g) x))
        by (rewrite lookup_upd_player_eq, Hx; reflexivity).
      rewrite (bool_decide_eq_false_2 _ Hnin).
      rewrite bool_decide_eq_true_2 by left. reflexivity.
    + rewrite (IH _ Hnd' j x)
        by (rewrite lookup_upd_player_ne by exact Hne; exact Hx).
      cbn [BUY_IN_COST house upd_player set_players].
      apply f_equal. apply (f_equal (fun b : bool => if b then _ else _)).
      apply bool_decide_ext. rewrite elem_of_cons. intuition congruence.
Qed.

Lemma sorted_NoDup (l : list nat) : StronglySorted lt l -> NoDup l.
Proof.
  induction 1 as [|a l _ IH Hall]; constructor; [|exact IH].
  intros Hin. rewrite Forall_forall in Hall. specialize (Hall a Hin). lia.
Qed.

Lemma active_from_length cost ps : forall i,
  (length (active_from cost i ps) <= length ps)%nat.
Proof.
  induction ps as [|x ps IH]; intros i; simpl; [lia|].
  destruct (coins_ge (coins x) cost); simpl; specialize (IH (S i)); lia.
Qed.

(** What a hand neither doubled nor surrendered can earn. *)
Lemma settle_plain_hand cost house coins h :
  is_double_down h = false -> is_surrendered h = false ->
  let paid := settle_hand cost house coins h in
  (paid == coins \/ paid == coins + inject_Z cost
   \/ paid == coins + 2 * inject_Z cost \/ paid == coins + 3 * inject_Z cost)%Q.
Proof.
  intros Hd Hs paid. unfold paid, settle_hand. rewrite Hd, Hs. cbn [negb].
  repeat match goal with
         | |- context [if ?b then _ else _] => destruct b
         end; rewrite ?inject_Z_mult.
  - right. right. right. reflexivity.
  - right. right. left. apply Qplus_comp; [reflexivity | apply Qmult_comm].
  - right. left. reflexivity.
  - left. reflexivity.
Qed.

(** X23.  A table where everybody plays [StudentStrategy] of
    strategy_template.py, a deck without session holding
    20 cards plus two per player, fuel for 19 passes: the round always
    returns.  Every player who could pay the ante then holds one hand,
    neither doubled nor surrendered, and the final balance is the balance
    after the ante settled on that hand: the start balance minus one ante
    (loss), the start balance (push), plus one ante (win) or plus two
    (natural blackjack). *)
Theorem student_table_round_completes
    (net : Network) (random_shuffle : list Player -> list Player)
    (fuel : nat) (g : GameController) :
  (forall l, random_shuffle l ≡ₚ l) ->
  Forall (fun pl => strategy pl = StudentStrategy) (players g) ->
  Deck.id (deck g) = None ->
  (2 * length (players g) + 20 <= length (Deck._backup_deck (deck g)))%nat ->
  (19 <= fuel)%nat ->
  exists b g',
    play_round net random_shuffle fuel g = Ok (b, g')
    /\ forall j x,
         random_shuffle (players g) !! j = Some x ->
         (inject_Z (BUY_IN_COST g) <= coins x)%Q ->
         exists y h,
           players g' !! j = Some y /\ hands y = [h]
           /\ is_double_down h = false /\ is_surrendered h = false
           /\ coins y = settle_hand (BUY_IN_COST g) (house g')
                          (coins x - inject_Z (BUY_IN_COST g))%Q h
           /\ (coins y == coins x - inject_Z (BUY_IN_COST g)
               \/ coins y == coins x
               \/ coins y == coins x + inject_Z (BUY_IN_COST g)
               \/ coins y == coins x + 2 * inject_Z (BUY_IN_COST g))%Q.
Proof.
  intros Hperm Hstud Hid Hpile Hfuel.
  set (cost := BUY_IN_COST g).
  set (ps := random_shuffle (players g)).
  assert (Hlen : length ps = length (players g))
    by (unfold ps; rewrite Hperm; reflexivity).
  assert (Hstud' : Forall (fun pl => strategy pl = StudentStrategy) ps)
    by (unfold ps; rewrite Hperm; exact Hstud).
  unfold play_round. cbn [players set_players BUY_IN_COST]. fold ps cost.
  destruct (forallb (fun pl => coins_lt (coins pl) cost) ps) eqn:Hall.
  { eexists _, _. split; [reflexivity|]. intros j x Hx Hc. exfalso.
    apply forallb_Forall in Hall.
    pose proof (Forall_lookup_1 _ _ _ _ Hall Hx) as Hlt. cbn in Hlt.
    apply coins_lt_iff in Hlt. exact (Qlt_not_le _ _ Hlt Hc). }
  set (act := active_from cost 0 ps).
  match goal with
  | |- context [deal_players net _ ?ga] => set (g_a := ga)
  end.
  change (active_players g_a) with act.
  assert (Hact_len : (length act <= length (players g))%nat).
  { rewrite <- Hlen. apply active_from_length. }
  assert (Hida : Deck.id (deck g_a) = None) by exact Hid.
  assert (Hseat_a : forall p, p ∈ act ->
            exists x, ps !! p = Some x /\ (inject_Z cost <= coins x)%Q
              /\ players g_a !! p
                 = Some (join_table (set_coins (coins x - inject_Z cost)%Q x))).
  { intros p Hp. unfold act in Hp. rewrite active_from_spec in Hp.
    destruct Hp as (k & x & Hk & Hx & Hc). simpl in Hk. subst k.
    exists x. split; [exact Hx|]. split; [exact Hc|].
    change (players g_a) with (pay_ante cost <$> ps).
    rewrite list_lookup_fmap, Hx. cbn [fmap option_fmap option_map]. unfold pay_ante.
    rewrite (proj2 (coins_ge_iff _ _) Hc). reflexivity. }
  assert (Hone_a : forall p, p ∈ act -> length (player_hands g_a p) = 1%nat).
  { intros p Hp. destruct (Hseat_a p Hp) as (x & _ & _ & Hx).
    unfold player_hands. rewrite Hx. reflexivity. }
  (* first card to every hand *)
  destruct (deal_players_calm net act g_a Hida Hone_a) as (g1 & H1 & C1).
  { change (Deck._backup_deck (deck g_a)) with (Deck._backup_deck (deck g)). lia. }
  rewrite H1. cbn [bind].
  (* the dealer's first card *)
  destruct (calm_draw net g1 (calm_id _ _ _ C1)) as (c & g2 & H2 & C2 & Hh2).
  { pose proof (calm_pile _ _ _ C1) as P1.
    change (Deck._backup_deck (deck g_a)) with (Deck._backup_deck (deck g)) in P1.
    lia. }
  rewrite H2. cbn [bind].
  set (g2' := set_house (add_card (house g2) c) g2).
  assert (C2' : calm 0 g2 g2')
    by (apply calm_same; [exact (calm_id _ _ _ C2) | reflexivity..]).
  assert (Ca2 : calm (length act + 1 + 0) g_a g2')
    by (eapply calm_trans; [eapply calm_trans; eassumption | exact C2']).
  assert (A2 : active_players g2' = act).
  { destruct Ca2 as (_ & _ & -> & _). reflexivity. }
  rewrite A2.
  (* second card to every hand *)
  destruct (deal_players_calm net act g2' (calm_id _ _ _ Ca2)) as (g3 & H3 & C3).
  { intros p Hp. rewrite (calm_hands_length _ _ _ p Ca2). apply Hone_a, Hp. }
  { pose proof (calm_pile _ _ _ Ca2) as P2.
    change (Deck._backup_deck (deck g_a)) with (Deck._backup_deck (deck g)) in P2.
    lia. }
  rewrite H3. cbn [bind].
  set (g3' := tell_house (house g3) g3).
  assert (C3' : calm 0 g3 g3') by (apply tell_house_calm, (calm_id _ _ _ C3)).
  assert (Ca3 : calm (length act + 1 + 0 + length act + 0) g_a g3')
    by (eapply calm_trans; [eapply calm_trans; eassumption | exact C3']).
  assert (A3 : active_players g3' = act).
  { destruct Ca3 as (_ & _ & -> & _). reflexivity. }
  rewrite A3.
  (* the turns *)
  destruct (play_players_student net (house g3) fuel act g3' (calm_id _ _ _ Ca3))
    as (g4 & H4 & C4); [|lia|].
  { intros p Hp. destruct (Hseat_a p Hp) as (x & Hx & _ & Hxa).
    destruct (calm_seat _ _ _ _ _ Ca3 Hxa) as (y & Hy & (Sy & _ & Fy)).
    exists y. split; [exact Hy|]. split.
    - rewrite Sy. cbn. exact (Forall_lookup_1 _ _ _ _ Hstud' Hx).
    - apply (f_equal length) in Fy. rewrite !length_fmap in Fy. exact Fy. }
  rewrite H4. cbn [bind].
  set (g4' := set_house (Hand_init (cards (house g3)))
                (tell_house (house g4) g4)).
  assert (C4' : calm 0 g4 g4').
  { change 0%nat with (0 + 0)%nat. eapply calm_trans.
    - apply (tell_house_calm (house g4)), (calm_id _ _ _ C4).
    - apply calm_same; [apply tell_house_calm, (calm_id _ _ _ C4) | reflexivity..]. }
  assert (Ca4 : calm (length act + 1 + 0 + length act + 0 + 0 + 0) g_a g4')
    by (eapply calm_trans; [eapply calm_trans; eassumption | exact C4']).
  (* the dealer's second card, not announced *)
  pose proof (calm_pile _ _ _ Ca4) as P4.
  change (Deck._backup_deck (deck g_a)) with (Deck._backup_deck (deck g)) in P4.
  destruct (pop_of_length (Deck._backup_deck (deck g4'))
              (length (Deck._backup_deck (deck g4')) - 1))
    as (c2 & rest & Hpop & Hrest); [lia|].
  rewrite draw_card_local by exact (calm_id _ _ _ Ca4).
  unfold Deck.pop_local. rewrite Hpop. cbn [bind].
  match goal with
  | |- context [house_turn net fuel ?ge] => set (g5 := ge)
  end.
  assert (Hid5 : Deck.id (deck g5) = None) by exact (calm_id _ _ _ Ca4).
  destruct (house_turn_terminates net fuel g5 Hid5) as (g6 & H6).
  { pose proof (hard_total_cards_nonneg (cards (house g5))) as Hnn.
    fold (hard_total (house g5)) in Hnn.
    change (Deck._backup_deck (deck g5)) with rest. lia. }
  { pose proof (hard_total_cards_nonneg (cards (house g5))) as Hnn.
    fold (hard_total (house g5)) in Hnn. lia. }
  rewrite H6. cbn [bind].
  destruct (house_turn_still _ _ _ _ H6) as (F6 & A6 & B6).
  eexists _, _. split; [reflexivity|].
  intros j x Hx Hc.
  assert (Hj : j ∈ act).
  { unfold act. rewrite active_from_spec. exists j, x. repeat split; assumption. }
  destruct (Hseat_a j Hj) as (x' & Hx' & _ & Hxa).
  rewrite Hx in Hx'. injection Hx' as <-.
  destruct (calm_seat _ _ _ _ _ Ca4 Hxa) as (y4 & Hy4 & St4).
  destruct (Forall2_lookup_l _ _ _ _ _ F6 Hy4) as (y6 & Hy6 & St6).
  destruct (still_trans _ _ _ St4 St6) as (_ & Hcoins & Hflags).
  cbn [coins hands join_table set_hands set_coins] in Hcoins, Hflags.
  destruct (hands y6) as [|h [|? ?]] eqn:Hh6; try discriminate Hflags.
  injection Hflags as Hdd Hsur.
  assert (Hact6 : active_players g6 = act).
  { rewrite A6. destruct Ca4 as (_ & _ & E & _). exact E. }
  assert (Hcost6 : BUY_IN_COST g6 = cost).
  { rewrite B6. destruct Ca4 as (_ & _ & _ & E & _). exact E. }
  pose proof (settle_players_lookup (active_players g6) g6) as Hsl.
  rewrite Hact6 in Hsl.
  specialize (Hsl (sorted_NoDup _ (proj1 (active_from_sorted cost ps 0))) j y6 Hy6).
  rewrite (bool_decide_eq_true_2 _ Hj), Hcost6 in Hsl.
  destruct (settle_players_fixed (active_players g6) g6) as [Hhouse _].
  exists (settle_player cost (house g6) y6), h.
  rewrite Hact6 in Hhouse |- *. rewrite Hhouse.
  split; [exact Hsl|].
  cbn [settle_player hands coins tell set_coins]. rewrite Hh6, Hcoins.
  split; [reflexivity|]. split; [exact Hdd|]. split; [exact Hsur|].
  split; [reflexivity|]. cbn [fold_left].
  destruct (settle_plain_hand cost (house g6) (coins x - inject_Z cost)%Q h Hdd Hsur)
    as [E|[E|[E|E]]]; rewrite E.
  - left. reflexivity.
  - right. left. ring.
  - right. right. left. ring.
  - right. right. right. ring.
Qed.

Lemma student_table_round_completes_witness :
  exists b g',
    play_round no_network (fun l => l) 19 student_table = Ok (b, g')
    /\ forall j x,
         players student_table !! j = Some x ->
         (inject_Z (BUY_IN_COST student_table) <= coins x)%Q ->
         exists y h,
           players g' !! j = Some y /\ hands y = [h]
           /\ is_double_down h = false /\ is_surrendered h = false
           /\ coins y = settle_hand (BUY_IN_COST student_table) (house g')
                          (coins x - inject_Z (BUY_IN_COST student_table))%Q h
           /\ (coins y == coins x - inject_Z (BUY_IN_COST student_table)
               \/ coins y == coins x
               \/ coins y == coins x + inject_Z (BUY_IN_COST student_table)
               \/ coins y == coins x + 2 * inject_Z (BUY_IN_COST student_table))%Q.
Proof.
  apply (student_table_round_completes no_network (fun l => l) 19 student_table).
  - intros l. reflexivity.
  - repeat constructor.
  - reflexivity.
  - simpl. lia.
  - lia.
Defined.

(** * Further properties: [Deck.shuffle] of deck.py *)

(** X24.  A deck of deck.py is never reordered.  After the constructor,
    [shuffle] raises [TypeError] when the deck holds no session; with a
    session it asks the service for the path ending in [suhffle] and
    raises what the transport raises; when it returns, the deck is the one
    it was, its local pile still the packs in pack order. *)
Theorem deckpy_shuffle_never_reorders
    (net net' : Network) (n : nat) (sh : bool) (d : DeckPy.t) :
  DeckPy.init net n sh = Ok d ->
  (DeckPy.id d = None -> DeckPy.shuffle net' d = Raise TypeError)
  /\ (forall d', DeckPy.shuffle net' d = Ok d' ->
        d' = d
        /\ DeckPy._backup_deck d' = concat (replicate n _generate_backup_pile)
        /\ exists i b, DeckPy.id d = Some i
             /\ net' (DECK_BASE_API +:+ i +:+ "/suhffle") = Json b)
  /\ (forall e, DeckPy.shuffle net' d = Raise e ->
        (e = TypeError /\ DeckPy.id d = None)
        \/ (exists i, DeckPy.id d = Some i
             /\ ((e = RequestException
                  /\ net' (DECK_BASE_API +:+ i +:+ "/suhffle") = NetworkError)
                 \/ (e = ValueError
                     /\ net' (DECK_BASE_API +:+ i +:+ "/suhffle") = Malformed)))).
Proof.
  intros Hinit.
  assert (Hpile : DeckPy._backup_deck d = concat (replicate n _generate_backup_pile)).
  { unfold DeckPy.init in Hinit.
    destruct (DeckPy._request net _) as [b| |]; cbn [bind] in Hinit;
      try discriminate.
    destruct (b_remaining b); [destruct (b_deck_id b)|];
      try discriminate; injection Hinit as <-; reflexivity. }
  unfold DeckPy.shuffle, DeckPy._request.
  destruct (DeckPy.id d) as [i|]; [|repeat split; try discriminate].
  - destruct (net' (DECK_BASE_API +:+ i +:+ "/suhffle")) as [| |b] eqn:Hn;
      cbn [bind]; (split; [discriminate|]); split; try discriminate.
    + intros e [= <-]. right. exists i. split; [reflexivity|]. left. split; [reflexivity | exact Hn].
    + intros e [= <-]. right. exists i. split; [reflexivity|]. right. split; [reflexivity | exact Hn].
    + intros d' [= <-]. split; [reflexivity|]. split; [exact Hpile|].
      exists i, b. split; [reflexivity | exact Hn].
  - intros e [= <-]. left. split; reflexivity.
Qed.

Lemma deckpy_shuffle_never_reorders_witness :
  let net := answering (mkBody (Some true) (Some "abc") (Some 52) None) in
  exists d,
    DeckPy.init net 1 true = Ok d
    /\ DeckPy.shuffle net d = Ok d
    /\ DeckPy._backup_deck d = concat (replicate 1 _generate_backup_pile).
Proof.
  intros net. eexists. split; [reflexivity|].
  destruct (deckpy_shuffle_never_reorders net net 1 true _ eq_refl)
    as (_ & H & _).
  split; [reflexivity|]. apply (H _ eq_refl).
Defined.
